(** * ALT_Tool: acceleration factors and zero-failure test times

    A shallow embedding of the calculation part of [alt_tool.py]
    (the acceleration-factor block, the point test times, the two
    zero-failure test-time functions and the per-model sample-size
    tables), followed by the properties established about it.

    Numbers.  A finite Python float is a real number.  What is kept from
    Python is what decides whether an expression returns or raises:
    [/] raises [ZeroDivisionError] on a zero divisor, [math.log] raises
    [ValueError] outside the positive reals, [**] raises
    [ZeroDivisionError] for [0.0 ** negative] and returns a [complex] for
    a negative base with a non-integral exponent, and [math.exp], [**]
    and the conversion of an [int] raise [OverflowError] when the result
    is beyond the largest double; [math.exp] and [**] return [0.0] when
    the result is below the smallest one.

    What is not represented: the rounding of each operation to 53 bits,
    and the values [inf] and [nan] that [+], [-], [*] and [/] produce
    silently beyond the double range.  Sums, products and quotients are
    exact here.  Where a statement would depend on that, it carries
    explicit range hypotheses that keep every intermediate value well
    inside the double range, and it is stated so that rounding cannot
    change it. *)

From Stdlib Require Import String Reals Lra Lia ZArith List Bool.
Import ListNotations.

Local Open Scope R_scope.

(** ** Python results and numbers *)

Module Py.

Inductive PyError : Set :=
| ZeroDivisionError
| ValueError
| TypeError
| OverflowError.

Inductive result (A : Type) : Type :=
| Ok (a : A)
| Raise (e : PyError).
Arguments Ok {A} a.
Arguments Raise {A} e.

Definition bind {A B : Type} (c : result A) (f : A -> result B) : result B :=
  match c with
  | Ok a => f a
  | Raise e => Raise e
  end.

Fixpoint mapM {A B : Type} (f : A -> result B) (l : list A) : result (list B) :=
  match l with
  | [] => Ok []
  | x :: xs =>
      bind (f x) (fun y => bind (mapM f xs) (fun ys => Ok (y :: ys)))
  end.

(** A value of Python's numeric tower as the script can produce it. *)
Inductive pynum : Type :=
| PyFloat (x : R)
| PyComplex (re im : R).

Definition re_part (a : pynum) : R :=
  match a with PyFloat x => x | PyComplex re _ => re end.

Definition im_part (a : pynum) : R :=
  match a with PyFloat _ => 0 | PyComplex _ im => im end.

(** The largest double, [(2 - 2^-52) * 2^1023], and half the smallest
    positive one, [2^-1075], below which a result rounds to [0.0]. *)
Definition dbl_max : R := (2 - / IZR (2 ^ 52)) * IZR (2 ^ 1023).
Definition dbl_tiny : R := / IZR (2 ^ 1075).

(** The float result of [math.exp] or [**] whose exact value is [r]. *)
Definition ranged (r : R) : result R :=
  if Rlt_dec dbl_max (Rabs r) then Raise OverflowError
  else if Rlt_dec (Rabs r) dbl_tiny then Ok 0
  else Ok r.

(** The conversion of an [int] operand to [float]. *)
Definition int_to_float (N : Z) : result R :=
  if Rlt_dec dbl_max (Rabs (IZR N)) then Raise OverflowError
  else Ok (IZR N).

(** [x / y] on floats. *)
Definition float_div (x y : R) : result R :=
  if Req_dec_T y 0 then Raise ZeroDivisionError else Ok (x / y).

(** [a * b], with the float operand coerced when the other is complex. *)
Definition num_mul (a b : pynum) : pynum :=
  match a, b with
  | PyFloat x, PyFloat y => PyFloat (x * y)
  | _, _ =>
      PyComplex (re_part a * re_part b - im_part a * im_part b)
                (re_part a * im_part b + im_part a * re_part b)
  end.

(** [a / b], float or complex division. *)
Definition num_div (a b : pynum) : result pynum :=
  match a, b with
  | PyFloat x, PyFloat y =>
      bind (float_div x y) (fun q => Ok (PyFloat q))
  | _, _ =>
      let d := re_part b * re_part b + im_part b * im_part b in
      if Req_dec_T d 0 then Raise ZeroDivisionError
      else Ok (PyComplex ((re_part a * re_part b + im_part a * im_part b) / d)
                         ((im_part a * re_part b - re_part a * im_part b) / d))
  end.

(** [math.log(x)] on a float. *)
Definition math_log (x : R) : result R :=
  if Rlt_dec 0 x then Ok (ln x) else Raise ValueError.

(** [math.exp(x)] on a float. *)
Definition math_exp (x : R) : result R := ranged (exp x).

Definition is_integral (y : R) : bool :=
  if Req_dec_T (IZR (Zfloor y)) y then true else false.

(** [x ** y] on floats. *)
Definition float_pow (x y : R) : result pynum :=
  if Req_dec_T y 0 then Ok (PyFloat 1)
  else if Req_dec_T x 0 then
    if Rlt_dec y 0 then Raise ZeroDivisionError else Ok (PyFloat 0)
  else if Rlt_dec 0 x then
    bind (ranged (Rpower x y)) (fun w => Ok (PyFloat w))
  else if is_integral y then
    bind (ranged (Rpower (- x) y))
         (fun w => Ok (PyFloat (if Z.even (Zfloor y) then w else - w)))
  else
    bind (ranged (Rpower (- x) y))
         (fun w => Ok (PyComplex (w * cos (PI * y)) (w * sin (PI * y)))).

(** Nearest integer, ties to even. *)
Definition round_half_even (r : R) : Z :=
  let f := Zfloor r in
  if Rlt_dec (r - IZR f) (1 / 2) then f
  else if Rlt_dec (1 / 2) (r - IZR f) then (f + 1)%Z
  else if Z.even f then f else (f + 1)%Z.

(** [round(a, 4)]; [complex] has no [__round__]. *)
Definition round4 (a : pynum) : result R :=
  match a with
  | PyFloat x => Ok (IZR (round_half_even (x * 10000)) / 10000)
  | PyComplex _ _ => Raise TypeError
  end.

(** [math.ceil(a)]. *)
Definition math_ceil (a : pynum) : result Z :=
  match a with
  | PyFloat x => Ok (Zceil x)
  | PyComplex _ _ => Raise TypeError
  end.

End Py.
Import Py.

Notation "x <- c ;; k" := (bind c (fun x => k))
  (at level 61, c at next level, right associativity).

(** ** The script *)

(** The values read from the input widgets. *)
Record ParameterSet : Type := {
  T_use_C : R;
  RH_use : R;
  Ea : R;
  confidence : R;
  reliability : R;
  beta : R;
  T_stress_C : R;
  RH_stress : R;
  n : R;
  m : R;
  D_uv : R;
  D_tc : R;
  D_mech : R;
  L : R
}.

(** Boltzmann constant (eV/K). *)
Definition k : R := 8.617e-5.

Section Script.

Variable p : ParameterSet.

Definition T_use_K : R := T_use_C p + 273.15.
Definition T_stress_K : R := T_stress_C p + 273.15.

(** [math.exp((Ea/k) * ((1/T_use_K) - (1/T_stress_K)))] *)
Definition arrhenius_term : result R :=
  a <- float_div (Ea p) k ;;
  b <- float_div 1 T_use_K ;;
  c <- float_div 1 T_stress_K ;;
  math_exp (a * (b - c)).

Definition AF_arrhenius : result pynum :=
  e <- arrhenius_term ;; Ok (PyFloat e).

Definition AF_peck : result pynum :=
  r <- float_div (RH_use p) (RH_stress p) ;;
  w <- float_pow r (- n p) ;;
  e <- arrhenius_term ;;
  Ok (num_mul w (PyFloat e)).

Definition AF_eyring : result pynum :=
  r <- float_div (RH_stress p) (RH_use p) ;;
  w <- float_pow r (m p) ;;
  e <- arrhenius_term ;;
  Ok (num_mul w (PyFloat e)).

Definition AF_eyring_total (af_eyring : pynum) : pynum :=
  num_mul (num_mul (num_mul af_eyring (PyFloat (D_uv p))) (PyFloat (D_tc p)))
          (PyFloat (D_mech p)).

(** The four factors, in the order the script computes them. *)
Record AFs : Type := {
  af_arrhenius : pynum;
  af_peck : pynum;
  af_eyring : pynum;
  af_eyring_total : pynum
}.

Definition AF_calculations : result AFs :=
  a <- AF_arrhenius ;;
  b <- AF_peck ;;
  c <- AF_eyring ;;
  Ok {| af_arrhenius := a; af_peck := b; af_eyring := c;
        af_eyring_total := AF_eyring_total c |}.

(** [T = L / AF] *)
Definition point_test_time (AF : pynum) : result pynum :=
  num_div (PyFloat (L p)) AF.

Record Ts : Type := {
  T_arrhenius : pynum;
  T_peck : pynum;
  T_eyring : pynum;
  T_eyring_total : pynum
}.


Definition model_names : list string :=
  ["Arrhenius"; "Peck"; "Eyring"; "Eyring + Derating"]%string.

Definition model_AFs (f : AFs) : list pynum :=
  [af_arrhenius f; af_peck f; af_eyring f; af_eyring_total f].

(** The columns of the per-model summary data frame. *)
Record ModelsTable : Type := {
  models_Model : list string;
  models_AF : list pynum;
  models_hr : list pynum;
  models_days : list pynum;
  models_rounded_days : list Z
}.

Definition models_df (f : AFs) (ts : Ts) : result ModelsTable :=
  let T := [T_arrhenius ts; T_peck ts; T_eyring ts; T_eyring_total ts] in
  ds <- mapM (fun t => num_div t (PyFloat 24)) T ;;
  rs <- mapM (fun t => d <- num_div t (PyFloat 24) ;; math_ceil d) T ;;
  Ok {| models_Model := model_names; models_AF := model_AFs f;
        models_hr := T; models_days := ds; models_rounded_days := rs |}.

Definition N_range : list Z := map Z.of_nat (seq 1 30).

Definition test_time_exponential (N : Z) (AF : pynum) : result pynum :=
  Nf <- int_to_float N ;;
  d <- num_div (PyFloat (L p)) (num_mul (PyFloat Nf) AF) ;;
  l1 <- math_log (1 - confidence p) ;;
  l2 <- math_log (reliability p) ;;
  q <- float_div l1 l2 ;;
  Ok (num_mul d (PyFloat q)).

Definition test_time_weibull (N : Z) (AF : pynum) : result pynum :=
  l <- math_log (1 - confidence p) ;;
  e <- float_div 1 (beta p) ;;
  term <- float_pow (- l) e ;;
  q <- num_div (PyFloat (L p)) AF ;;
  e' <- float_div 1 (beta p) ;;
  Nf <- int_to_float N ;;
  w <- float_pow Nf e' ;;
  num_div (num_mul q term) w.

(** The columns of one sample-size data frame. *)
Record SampleTable : Type := {
  sample_size : list Z;
  test_time_hours : list R;
  test_time_days : list R;
  rounded_days : list Z
}.

Definition sample_table (f : Z -> result pynum) : result SampleTable :=
  hs <- mapM (fun N => t <- f N ;; round4 t) N_range ;;
  ds <- mapM (fun N => t <- f N ;;
                       d <- num_div t (PyFloat 24) ;; round4 d) N_range ;;
  rs <- mapM (fun N => t <- f N ;;
                       d <- num_div t (PyFloat 24) ;; math_ceil d) N_range ;;
  Ok {| sample_size := N_range; test_time_hours := hs;
        test_time_days := ds; rounded_days := rs |}.

Definition df_exp (AF : pynum) : result SampleTable :=
  sample_table (fun N => test_time_exponential N AF).

Definition df_weibull (AF : pynum) : result SampleTable :=
  sample_table (fun N => test_time_weibull N AF).

(** The loop over the four model tabs: both data frames for each factor. *)
Definition tabs (f : AFs) : result (list (SampleTable * SampleTable)) :=
  mapM (fun AF => e <- df_exp AF ;; w <- df_weibull AF ;; Ok (e, w))
       (model_AFs f).

End Script.

(** ** Parameter sets and predicates used in the statements *)

(** The parameter set of the widgets' default values. *)
Definition defaults : ParameterSet :=
  {| T_use_C := 25; RH_use := 50; Ea := 0.9; confidence := 0.9;
     reliability := 0.9; beta := 1; T_stress_C := 85; RH_stress := 85;
     n := 3; m := 2; D_uv := 0.8; D_tc := 0.9; D_mech := 0.95;
     L := 87600 |}.

(** Everything at its neutral value: equal temperatures and humidities,
    no derating, one hour of target life. *)
Definition neutral : ParameterSet :=
  {| T_use_C := 25; RH_use := 50; Ea := 1; confidence := 1 / 2;
     reliability := 1 / 2; beta := 1; T_stress_C := 25; RH_stress := 50;
     n := 3; m := 2; D_uv := 1; D_tc := 1; D_mech := 1; L := 1 |}.

Definition set_beta (p : ParameterSet) (b : R) : ParameterSet :=
  {| T_use_C := T_use_C p; RH_use := RH_use p; Ea := Ea p;
     confidence := confidence p; reliability := reliability p; beta := b;
     T_stress_C := T_stress_C p; RH_stress := RH_stress p; n := n p;
     m := m p; D_uv := D_uv p; D_tc := D_tc p; D_mech := D_mech p;
     L := L p |}.

Definition set_reliability (p : ParameterSet) (r : R) : ParameterSet :=
  {| T_use_C := T_use_C p; RH_use := RH_use p; Ea := Ea p;
     confidence := confidence p; reliability := r; beta := beta p;
     T_stress_C := T_stress_C p; RH_stress := RH_stress p; n := n p;
     m := m p; D_uv := D_uv p; D_tc := D_tc p; D_mech := D_mech p;
     L := L p |}.

(** Use humidity 0 with a negative Peck exponent. *)
Definition dry_use : ParameterSet :=
  {| T_use_C := 25; RH_use := 0; Ea := 1; confidence := 1 / 2;
     reliability := 1 / 2; beta := 1; T_stress_C := 25; RH_stress := 50;
     n := -1; m := 2; D_uv := 1; D_tc := 1; D_mech := 1; L := 1 |}.


(** The two parameter sets differ at most in the named field. *)
Definition agree_except_beta (p q : ParameterSet) : Prop :=
  T_use_C p = T_use_C q /\ RH_use p = RH_use q /\ Ea p = Ea q /\
  confidence p = confidence q /\ reliability p = reliability q /\
  T_stress_C p = T_stress_C q /\ RH_stress p = RH_stress q /\
  n p = n q /\ m p = m q /\ D_uv p = D_uv q /\ D_tc p = D_tc q /\
  D_mech p = D_mech q /\ L p = L q.

Definition agree_except_reliability (p q : ParameterSet) : Prop :=
  T_use_C p = T_use_C q /\ RH_use p = RH_use q /\ Ea p = Ea q /\
  confidence p = confidence q /\ beta p = beta q /\
  T_stress_C p = T_stress_C q /\ RH_stress p = RH_stress q /\
  n p = n q /\ m p = m q /\ D_uv p = D_uv q /\ D_tc p = D_tc q /\
  D_mech p = D_mech q /\ L p = L q.


(** The closed forms of the four acceleration factors. *)
Definition AF_arrhenius_value (p : ParameterSet) : R :=
  exp ((Ea p / k) * (1 / T_use_K p - 1 / T_stress_K p)).

Definition AF_peck_value (p : ParameterSet) : R :=
  Rpower (RH_use p / RH_stress p) (- n p) * AF_arrhenius_value p.

Definition AF_eyring_value (p : ParameterSet) : R :=
  Rpower (RH_stress p / RH_use p) (m p) * AF_arrhenius_value p.

(** The value returned by [test_time_exponential] on float arguments. *)
Definition exponential_value (p : ParameterSet) (N : Z) (a : R) : R :=
  (L p / (IZR N * a)) * (ln (1 - confidence p) / ln (reliability p)).

(** The value returned by [test_time_weibull] on float arguments. *)
Definition weibull_value (p : ParameterSet) (N : Z) (a : R) : R :=
  (L p / a) * Rpower (- ln (1 - confidence p)) (1 / beta p)
  / Rpower (IZR N) (1 / beta p).


(** Every entry of a sample-size data frame, as displayed. *)
Definition table_entries_nonneg (t : SampleTable) : Prop :=
  Forall (fun N => (1 <= N <= 30)%Z) (sample_size t) /\
  Forall (fun h => 0 <= h) (test_time_hours t) /\
  Forall (fun d => 0 <= d) (test_time_days t) /\
  Forall (fun r => (1 <= r)%Z) (rounded_days t).



(** A list of reals, or of integers, that never increases. *)
Definition non_increasing (l : list R) : Prop :=
  forall i j x y, (i <= j)%nat ->
    nth_error l i = Some x -> nth_error l j = Some y -> y <= x.

Definition non_increasingZ (l : list Z) : Prop :=
  forall i j x y, (i <= j)%nat ->
    nth_error l i = Some x -> nth_error l j = Some y -> (y <= x)%Z.

(** A finite float, as opposed to a complex number. *)
Definition is_float (a : pynum) : Prop := exists x, a = PyFloat x.


(** ** Ranges that keep double arithmetic away from overflow and underflow *)

(** A positive magnitude well inside the double range. *)
Definition moderate (x : R) : Prop := 1e-50 <= x <= 1e50.

(** A probability bounded away from 0 and 1. *)
Definition interior (c : R) : Prop := 1e-6 <= c <= 1 - 1e-6.

(** The inputs of the acceleration-factor block, with the exponent of
    [math.exp] and the logarithms of the two humidity powers bounded by
    [B]. *)
Record AF_in_range (B : R) (p : ParameterSet) : Prop := {
  range_T_use : 1 <= T_use_K p;
  range_T_stress : 1 <= T_stress_K p;
  range_Ea : Rabs (Ea p) <= 1000;
  range_exponent :
    Rabs (Ea p / k * (1 / T_use_K p - 1 / T_stress_K p)) <= B;
  range_RH_use : 1e-100 <= RH_use p <= 1e100;
  range_RH_stress : 1e-100 <= RH_stress p <= 1e100;
  range_n : Rabs (n p) <= 1e6;
  range_m : Rabs (m p) <= 1e6;
  range_peck : Rabs (n p * ln (RH_use p / RH_stress p)) <= B;
  range_eyring : Rabs (m p * ln (RH_stress p / RH_use p)) <= B;
  range_D_uv : Rabs (D_uv p) <= 1e10;
  range_D_tc : Rabs (D_tc p) <= 1e10;
  range_D_mech : Rabs (D_mech p) <= 1e10
}.

(** The inputs of [test_time_weibull] for sample sizes up to [Nmax]: the
    logarithms of both powers are bounded by 200. *)
Record weibull_in_range (p : ParameterSet) (Nmax : Z) : Prop := {
  range_beta : 1e-6 <= Rabs (beta p);
  range_term : Rabs (ln (- ln (1 - confidence p)) / beta p) <= 200;
  range_N : ln (IZR Nmax) / Rabs (beta p) <= 200
}.

(** Default widget values with an activation energy of 1000 eV. *)
Definition high_Ea : ParameterSet :=
  {| T_use_C := 25; RH_use := 50; Ea := 1000; confidence := 0.9;
     reliability := 0.9; beta := 1; T_stress_C := 85; RH_stress := 85;
     n := 3; m := 2; D_uv := 0.8; D_tc := 0.9; D_mech := 0.95;
     L := 87600 |}.


(** Default widget values with a shape parameter of 1/4096. *)
Definition steep_weibull : ParameterSet :=
  {| T_use_C := 25; RH_use := 50; Ea := 0.9; confidence := 0.9;
     reliability := 0.9; beta := / 4096; T_stress_C := 85; RH_stress := 85;
     n := 3; m := 2; D_uv := 0.8; D_tc := 0.9; D_mech := 0.95;
     L := 87600 |}.


(** ** Basic facts about the Python primitives *)

Lemma k_pos : 0 < k.
Proof. unfold k; lra. Qed.

Lemma float_div_ok (x y : R) : y <> 0 -> float_div x y = Ok (x / y).
Proof. intro H; unfold float_div; destruct (Req_dec_T y 0); [contradiction | reflexivity]. Qed.

Lemma float_div_zero (x : R) : float_div x 0 = Raise ZeroDivisionError.
Proof. unfold float_div; destruct (Req_dec_T 0 0); [reflexivity | exfalso; auto]. Qed.

Lemma math_log_ok (x : R) : 0 < x -> math_log x = Ok (ln x).
Proof. intro H; unfold math_log; destruct (Rlt_dec 0 x); [reflexivity | contradiction]. Qed.

Lemma math_log_err (x : R) : x <= 0 -> math_log x = Raise ValueError.
Proof. intro H; unfold math_log; destruct (Rlt_dec 0 x); [lra | reflexivity]. Qed.

Lemma Rpower_pos (x y : R) : 0 < Rpower x y.
Proof. apply exp_pos. Qed.

(** *** The double range *)

Lemma dbl_max_lower : IZR (2 ^ 1023) <= dbl_max.
Proof.
  unfold dbl_max.
  assert (H : 0 < IZR (2 ^ 1023)) by (apply IZR_lt; reflexivity).
  assert (H' : / IZR (2 ^ 52) <= 1).
  { rewrite <- Rinv_1; apply Rinv_le_contravar; [lra |].
    apply IZR_le; discriminate. }
  nra.
Qed.

Lemma dbl_max_upper : dbl_max < IZR (2 ^ 1024).
Proof.
  unfold dbl_max.
  assert (H : 0 < IZR (2 ^ 1023)) by (apply IZR_lt; reflexivity).
  assert (H' : 0 < / IZR (2 ^ 52))
    by (apply Rinv_0_lt_compat, IZR_lt; reflexivity).
  replace (IZR (2 ^ 1024)) with (2 * IZR (2 ^ 1023))
    by (rewrite <- mult_IZR; f_equal).
  nra.
Qed.

Lemma dbl_tiny_pos : 0 < dbl_tiny.
Proof. apply Rinv_0_lt_compat, IZR_lt; reflexivity. Qed.

Lemma dbl_tiny_le_1 : dbl_tiny <= 1.
Proof.
  unfold dbl_tiny; rewrite <- Rinv_1.
  apply Rinv_le_contravar; [lra | apply IZR_le; discriminate].
Qed.


Lemma exp_INR (i : nat) : exp (INR i) = exp 1 ^ i.
Proof.
  induction i as [| i IH]; [simpl; apply exp_0 |].
  rewrite S_INR, exp_plus, IH; simpl; ring.
Qed.

Lemma exp_nat_upper (i : nat) : exp (INR i) <= IZR (3 ^ Z.of_nat i).
Proof.
  rewrite exp_INR, <- pow_IZR.
  apply pow_incr; split; [left; apply exp_pos | apply exp_le_3].
Qed.

Lemma exp_nat_lower (i : nat) : IZR (2 ^ Z.of_nat i) <= exp (INR i).
Proof.
  rewrite exp_INR, <- pow_IZR.
  apply pow_incr; split; [lra |].
  pose proof (exp_ineq1 1); lra.
Qed.

Lemma exp_300_upper : exp 300 <= IZR (2 ^ 1023).
Proof.
  replace 300 with (INR 300) by (rewrite INR_IZR_INZ; reflexivity).
  eapply Rle_trans; [apply exp_nat_upper |].
  apply IZR_le; vm_compute; discriminate.
Qed.

Lemma exp_in_range (y : R) :
  Rabs y <= 300 -> dbl_tiny <= exp y <= dbl_max.
Proof.
  intro H.
  assert (Hy : -300 <= y <= 300).
  { unfold Rabs in H; destruct (Rcase_abs y); lra. }
  pose proof exp_300_upper as H3; pose proof dbl_max_lower as Hm.
  assert (Hup : exp y <= exp 300).
  { destruct (Req_dec y 300) as [-> | Hne]; [lra |].
    left; apply exp_increasing; lra. }
  assert (Hlo : exp (-300) <= exp y).
  { destruct (Req_dec y (-300)) as [-> | Hne]; [lra |].
    left; apply exp_increasing; lra. }
  split; [| lra].
  eapply Rle_trans; [| exact Hlo].
  replace (-300) with (Ropp 300) by lra.
  rewrite exp_Ropp; unfold dbl_tiny.
  apply Rinv_le_contravar; [apply exp_pos |].
  eapply Rle_trans; [exact H3 |].
  apply IZR_le; vm_compute; discriminate.
Qed.

Lemma exp_overflows (y : R) : 1024 <= y -> dbl_max < exp y.
Proof.
  intro H.
  eapply Rlt_le_trans; [apply dbl_max_upper |].
  apply Rle_trans with (exp 1024).
  - replace 1024 with (INR 1024) by (rewrite INR_IZR_INZ; reflexivity).
    apply (exp_nat_lower 1024).
  - destruct (Req_dec y 1024) as [-> | Hne]; [lra |].
    left; apply exp_increasing; lra.
Qed.


Lemma ranged_ok (r : R) :
  dbl_tiny <= Rabs r <= dbl_max -> ranged r = Ok r.
Proof.
  intros [H1 H2]; unfold ranged.
  destruct (Rlt_dec dbl_max (Rabs r)); [lra |].
  destruct (Rlt_dec (Rabs r) dbl_tiny); [lra | reflexivity].
Qed.

Lemma ranged_exp_ok (y : R) : Rabs y <= 300 -> ranged (exp y) = Ok (exp y).
Proof.
  intro H; apply ranged_ok.
  rewrite Rabs_pos_eq by (left; apply exp_pos).
  now apply exp_in_range.
Qed.

Lemma ranged_exp_overflow (y : R) :
  1024 <= y -> ranged (exp y) = Raise OverflowError.
Proof.
  intro H; unfold ranged.
  rewrite Rabs_pos_eq by (left; apply exp_pos).
  destruct (Rlt_dec dbl_max (exp y)) as [_ | Hn]; [reflexivity |].
  exfalso; apply Hn; now apply exp_overflows.
Qed.


Lemma ranged_value (r w : R) :
  ranged r = Ok w -> w = 0 \/ w = r.
Proof.
  unfold ranged.
  destruct (Rlt_dec dbl_max (Rabs r)); [discriminate |].
  destruct (Rlt_dec (Rabs r) dbl_tiny); intro H; injection H as <-; auto.
Qed.

Lemma ranged_raise (r : R) (e : PyError) :
  ranged r = Raise e -> e = OverflowError.
Proof.
  unfold ranged.
  destruct (Rlt_dec dbl_max (Rabs r)); [congruence |].
  destruct (Rlt_dec (Rabs r) dbl_tiny); discriminate.
Qed.

Lemma math_exp_ok (y : R) : Rabs y <= 300 -> math_exp y = Ok (exp y).
Proof. apply ranged_exp_ok. Qed.

Lemma int_to_float_ok (N : Z) :
  (Z.abs N <= 2 ^ 1023)%Z -> int_to_float N = Ok (IZR N).
Proof.
  intro H; unfold int_to_float.
  destruct (Rlt_dec dbl_max (Rabs (IZR N))) as [Hlt | _]; [| reflexivity].
  exfalso. rewrite <- abs_IZR in Hlt.
  apply IZR_le in H. pose proof dbl_max_lower. lra.
Qed.

Lemma int_to_float_raise (N : Z) (e : PyError) :
  int_to_float N = Raise e -> e = OverflowError.
Proof.
  unfold int_to_float.
  destruct (Rlt_dec dbl_max (Rabs (IZR N))); congruence.
Qed.

Lemma float_pow_pos (x y : R) :
  0 < x -> Rabs (y * ln x) <= 300 ->
  float_pow x y = Ok (PyFloat (Rpower x y)).
Proof.
  intros Hx Hr; unfold float_pow.
  destruct (Req_dec_T y 0) as [-> | _].
  - now rewrite Rpower_O.
  - destruct (Req_dec_T x 0); [lra |].
    destruct (Rlt_dec 0 x); [| contradiction].
    unfold Rpower; now rewrite ranged_exp_ok.
Qed.

Lemma arrhenius_term_ok (p : ParameterSet) :
  T_use_K p <> 0 -> T_stress_K p <> 0 ->
  Rabs (Ea p / k * (1 / T_use_K p - 1 / T_stress_K p)) <= 300 ->
  arrhenius_term p =
    Ok (exp ((Ea p / k) * (1 / T_use_K p - 1 / T_stress_K p))).
Proof.
  intros Hu Hs Hr; unfold arrhenius_term.
  rewrite (float_div_ok (Ea p) k) by (pose proof k_pos; lra).
  rewrite (float_div_ok 1 _ Hu), (float_div_ok 1 _ Hs); cbn [bind].
  now apply math_exp_ok.
Qed.

Lemma Rabs_bound (x b : R) : Rabs x <= b -> - b <= x <= b.
Proof. unfold Rabs; destruct (Rcase_abs x); lra. Qed.

Lemma Rabs_ln_le (x : R) : 0 < x -> Rabs (ln x) <= x + / x.
Proof.
  intro Hx.
  assert (Hinv : 0 < / x) by now apply Rinv_0_lt_compat.
  assert (H1 : ln x <= x).
  { pose proof (exp_ineq1_le (ln x)) as H; rewrite exp_ln in H by assumption.
    lra. }
  assert (H2 : - ln x <= / x).
  { pose proof (exp_ineq1_le (ln (/ x))) as H.
    rewrite exp_ln in H by assumption.
    rewrite ln_Rinv in H by assumption. lra. }
  apply Rabs_le; lra.
Qed.

Lemma ln_neg (x : R) : 0 < x < 1 -> ln x < 0.
Proof.
  intros [H0 H1]; rewrite <- ln_1; now apply ln_increasing.
Qed.

Lemma IZR_ge_1 (N : Z) : (1 <= N)%Z -> 1 <= IZR N.
Proof. intro H; now apply IZR_le in H. Qed.

(** ** Acceleration factors *)

Lemma AF_calculations_eq (p : ParameterSet) :
  AF_in_range 300 p ->
  AF_calculations p =
    Ok {| af_arrhenius := PyFloat (AF_arrhenius_value p);
          af_peck := PyFloat (AF_peck_value p);
          af_eyring := PyFloat (AF_eyring_value p);
          af_eyring_total :=
            PyFloat (AF_eyring_value p * D_uv p * D_tc p * D_mech p) |}.
Proof.
  intros [].
  unfold AF_calculations, AF_arrhenius, AF_peck, AF_eyring.
  rewrite (arrhenius_term_ok p) by (assumption || lra).
  rewrite !float_div_ok by lra; cbn [bind].
  assert (Hr1 : 0 < RH_use p / RH_stress p) by (apply Rdiv_lt_0_compat; lra).
  assert (Hr2 : 0 < RH_stress p / RH_use p) by (apply Rdiv_lt_0_compat; lra).
  rewrite (float_pow_pos (RH_use p / RH_stress p)); [| assumption |].
  2:{ replace (- n p * ln (RH_use p / RH_stress p))
        with (- (n p * ln (RH_use p / RH_stress p))) by ring.
      now rewrite Rabs_Ropp. }
  rewrite (float_pow_pos (RH_stress p / RH_use p)) by assumption.
  reflexivity.
Qed.

Lemma AF_in_range_weaken (B B' : R) (p : ParameterSet) :
  B <= B' -> AF_in_range B p -> AF_in_range B' p.
Proof.
  intros HB []; constructor; try assumption; lra.
Qed.

(** C1, as the code has it.  With both Kelvin temperatures at least 1,
    an activation energy of at most 1000 eV in size, humidities and
    exponents of moderate size, and the exponent of [math.exp] and the
    logarithms of both humidity powers at most 300 in size, the
    acceleration-factor block returns the four closed forms: Arrhenius
    [E], Peck [(RH_use/RH_stress)^(-n) * E], Eyring
    [(RH_stress/RH_use)^m * E] and Eyring with derating
    [Eyring * D_uv * D_tc * D_mech], where
    [E = exp((Ea/k) * (1/T_use_K - 1/T_stress_K))], [k = 8.617e-5] and
    Kelvin is Celsius plus 273.15. *)
Theorem AF_calculations_closed_forms (p : ParameterSet) :
  AF_in_range 300 p ->
  let E := exp ((Ea p / k) * (1 / T_use_K p - 1 / T_stress_K p)) in
  let eyring := Rpower (RH_stress p / RH_use p) (m p) * E in
  k = 8.617e-5 /\
  T_use_K p = T_use_C p + 273.15 /\
  T_stress_K p = T_stress_C p + 273.15 /\
  AF_calculations p =
    Ok {| af_arrhenius := PyFloat E;
          af_peck := PyFloat (Rpower (RH_use p / RH_stress p) (- n p) * E);
          af_eyring := PyFloat eyring;
          af_eyring_total := PyFloat (eyring * D_uv p * D_tc p * D_mech p) |}.
Proof.
  intros Hr E eyring.
  repeat split; try reflexivity.
  now rewrite AF_calculations_eq.
Qed.

Lemma AF_in_range_defaults : AF_in_range 50 defaults.
Proof.
  assert (Hl : forall c x, 0 < x -> 0 <= c -> c * (x + / x) <= 50 ->
                           Rabs (c * ln x) <= 50).
  { intros c x Hx Hc Hb.
    rewrite Rabs_mult, (Rabs_pos_eq c) by assumption.
    pose proof (Rabs_ln_le x Hx). nra. }
  constructor; unfold T_use_K, T_stress_K, k; simpl;
    try (apply Rabs_le; lra); try lra.
  - apply Hl; lra.
  - apply Hl; lra.
Defined.

Lemma AF_calculations_closed_forms_defaults :
  exists f, AF_calculations defaults = Ok f /\
            af_arrhenius f =
              PyFloat (exp ((0.9 / k) * (1 / (25 + 273.15) - 1 / (85 + 273.15)))).
Proof.
  destruct (AF_calculations_closed_forms defaults
              (AF_in_range_weaken 50 300 defaults ltac:(lra) AF_in_range_defaults))
    as (_ & _ & _ & H).
  eexists; split; [exact H | reflexivity].
Defined.

(** C1 fails as stated: with an activation energy of 1000 eV at the
    default temperatures and humidities, all positive, [math.exp] raises
    [OverflowError] and no factor is returned. *)
Lemma AF_calculations_overflow :
  0 < T_use_K high_Ea /\ 0 < T_stress_K high_Ea /\
  0 < RH_use high_Ea /\ 0 < RH_stress high_Ea /\
  AF_calculations high_Ea = Raise OverflowError.
Proof.
  unfold T_use_K, T_stress_K; simpl.
  repeat split; try lra.
  unfold AF_calculations, AF_arrhenius, arrhenius_term.
  rewrite !float_div_ok by (unfold T_use_K, T_stress_K, k; simpl; lra).
  cbn [bind]; unfold math_exp.
  rewrite ranged_exp_overflow; [reflexivity |].
  unfold T_use_K, T_stress_K, k; simpl; lra.
Qed.

(** ** Zero-failure test times *)

Lemma moderate_pos (x : R) : moderate x -> 0 < x.
Proof. unfold moderate; lra. Qed.

Lemma interior_open (c : R) : interior c -> 0 < c < 1.
Proof. unfold interior; lra. Qed.

Lemma small_N_converts (N : Z) :
  (1 <= N <= 10 ^ 6)%Z -> int_to_float N = Ok (IZR N).
Proof.
  intro H; apply int_to_float_ok.
  assert ((10 ^ 6 <= 2 ^ 1023)%Z) by (vm_compute; discriminate).
  lia.
Qed.

Lemma test_time_exponential_eq (p : ParameterSet) (N : Z) (a : R) :
  (Z.abs N <= 2 ^ 1023)%Z -> IZR N * a <> 0 ->
  confidence p < 1 -> 0 < reliability p -> reliability p <> 1 ->
  test_time_exponential p N (PyFloat a) = Ok (PyFloat (exponential_value p N a)).
Proof.
  intros HN Hna Hc Hr0 Hr1; unfold test_time_exponential, exponential_value.
  rewrite int_to_float_ok by assumption; cbn [bind num_mul num_div].
  rewrite float_div_ok by assumption; cbn [bind].
  rewrite math_log_ok by lra; cbn [bind].
  rewrite math_log_ok by assumption; cbn [bind].
  rewrite float_div_ok by (apply ln_neq_0; assumption).
  reflexivity.
Qed.

Lemma test_time_weibull_eq (p : ParameterSet) (N : Z) (a : R) :
  (1 <= N <= 2 ^ 1023)%Z -> a <> 0 -> 0 < confidence p < 1 -> beta p <> 0 ->
  Rabs (1 / beta p * ln (- ln (1 - confidence p))) <= 300 ->
  Rabs (1 / beta p * ln (IZR N)) <= 300 ->
  test_time_weibull p N (PyFloat a) = Ok (PyFloat (weibull_value p N a)).
Proof.
  intros HN Ha Hc Hb Ht Hw; unfold test_time_weibull, weibull_value.
  assert (Hl : ln (1 - confidence p) < 0) by (apply ln_neg; lra).
  rewrite math_log_ok by lra; cbn [bind].
  rewrite !float_div_ok by assumption; cbn [bind].
  rewrite float_pow_pos by (assumption || lra); cbn [bind num_div].
  rewrite float_div_ok by assumption; cbn [bind].
  rewrite int_to_float_ok by lia; cbn [bind].
  assert (HN1 : 1 <= IZR N) by (apply IZR_ge_1; lia).
  rewrite float_pow_pos by (assumption || lra).
  cbn [bind num_mul num_div].
  rewrite float_div_ok by (pose proof (Rpower_pos (IZR N) (1 / beta p)); lra).
  reflexivity.
Qed.

Lemma exponential_value_pos (p : ParameterSet) (N : Z) (a : R) :
  (1 <= N)%Z -> 0 < a -> 0 < L p ->
  0 < confidence p < 1 -> 0 < reliability p < 1 ->
  0 < exponential_value p N a.
Proof.
  intros HN Ha HL Hc Hr; unfold exponential_value.
  apply IZR_ge_1 in HN.
  assert (H1 : ln (1 - confidence p) < 0) by (apply ln_neg; lra).
  assert (H2 : ln (reliability p) < 0) by (apply ln_neg; lra).
  apply Rmult_lt_0_compat.
  - apply Rdiv_lt_0_compat; [assumption | nra].
  - replace (ln (1 - confidence p) / ln (reliability p))
      with ((- ln (1 - confidence p)) / (- ln (reliability p)))
      by (field; lra).
    apply Rdiv_lt_0_compat; lra.
Qed.

Lemma weibull_value_pos (p : ParameterSet) (N : Z) (a : R) :
  0 < a -> 0 < L p -> 0 < weibull_value p N a.
Proof.
  intros Ha HL; unfold weibull_value.
  apply Rdiv_lt_0_compat; [| apply Rpower_pos].
  apply Rmult_lt_0_compat; [now apply Rdiv_lt_0_compat | apply Rpower_pos].
Qed.

(** The range hypotheses of [weibull_in_range] in the form the power
    function needs them. *)
Lemma weibull_in_range_powers (p : ParameterSet) (Nmax N : Z) :
  weibull_in_range p Nmax -> (1 <= N <= Nmax)%Z ->
  beta p <> 0 /\
  Rabs (1 / beta p * ln (- ln (1 - confidence p))) <= 300 /\
  Rabs (1 / beta p * ln (IZR N)) <= 300.
Proof.
  intros [Hb Ht HN] HNr.
  assert (Hb0 : beta p <> 0).
  { intro H0; rewrite H0, Rabs_R0 in Hb; lra. }
  assert (Habs : 0 < Rabs (beta p)) by lra.
  split; [exact Hb0 |]; split.
  - replace (1 / beta p * ln (- ln (1 - confidence p)))
      with (ln (- ln (1 - confidence p)) / beta p) by (field; assumption).
    lra.
  - assert (H1 : 1 <= IZR N) by (apply IZR_ge_1; lia).
    assert (Hln : 0 <= ln (IZR N)).
    { rewrite <- ln_1. destruct (Req_dec (IZR N) 1) as [-> | Hne]; [lra |].
      left; apply ln_increasing; lra. }
    assert (Hle : ln (IZR N) <= ln (IZR Nmax)).
    { destruct (Z.eq_dec N Nmax) as [-> | Hne]; [lra |].
      left; apply ln_increasing; [lra | apply IZR_lt; lia]. }
    replace (1 / beta p * ln (IZR N)) with (ln (IZR N) / beta p)
      by (field; assumption).
    unfold Rdiv; rewrite Rabs_mult, Rabs_inv, (Rabs_pos_eq _ Hln).
    apply Rle_trans with (ln (IZR Nmax) * / Rabs (beta p)).
    + apply Rmult_le_compat_r; [left; now apply Rinv_0_lt_compat | exact Hle].
    + unfold Rdiv in HN; lra.
Qed.

(** C2, as the code has it.  For a sample size between 1 and 10^6, [AF]
    and [L] between 1e-50 and 1e50, and confidence and reliability
    between 1e-6 and 1 - 1e-6, [test_time_exponential] returns
    [(L / (N*AF)) * (ln(1 - confidence) / ln(reliability))], and that
    value is strictly positive. *)
Theorem test_time_exponential_formula (p : ParameterSet) (N : Z) (a : R) :
  (1 <= N <= 10 ^ 6)%Z -> moderate a -> moderate (L p) ->
  interior (confidence p) -> interior (reliability p) ->
  test_time_exponential p N (PyFloat a) =
    Ok (PyFloat ((L p / (IZR N * a)) *
                 (ln (1 - confidence p) / ln (reliability p)))) /\
  0 < (L p / (IZR N * a)) * (ln (1 - confidence p) / ln (reliability p)).
Proof.
  intros HN Ha HL Hc Hr.
  apply moderate_pos in Ha, HL; apply interior_open in Hc, Hr.
  split.
  - apply test_time_exponential_eq; try lra.
    + assert ((10 ^ 6 <= 2 ^ 1023)%Z) by (vm_compute; discriminate). lia.
    + assert (1 <= IZR N) by (apply IZR_ge_1; lia). nra.
  - apply exponential_value_pos; try assumption; lia.
Qed.

Lemma test_time_exponential_formula_defaults :
  exists t, test_time_exponential defaults 5 (PyFloat 25) = Ok (PyFloat t) /\ 0 < t.
Proof.
  eexists.
  apply (test_time_exponential_formula defaults 5 25);
    unfold moderate, interior; simpl; lra || lia.
Defined.

(** C2 fails as stated: a positive integer too large for a float makes
    [N * AF] raise [OverflowError], whatever the other arguments. *)
Lemma test_time_exponential_huge_N :
  (1 <= 2 ^ 1100)%Z /\ 0 < 25 /\ 0 < L defaults /\
  0 < confidence defaults < 1 /\ 0 < reliability defaults < 1 /\
  test_time_exponential defaults (2 ^ 1100) (PyFloat 25) = Raise OverflowError.
Proof.
  repeat split; try (simpl; lra); try (vm_compute; discriminate).
  unfold test_time_exponential, int_to_float.
  destruct (Rlt_dec dbl_max (Rabs (IZR (2 ^ 1100)))) as [_ | Hn];
    [reflexivity |].
  exfalso; apply Hn.
  rewrite Rabs_pos_eq by (apply IZR_le; vm_compute; discriminate).
  eapply Rlt_le_trans; [apply dbl_max_upper |].
  apply IZR_le; vm_compute; discriminate.
Qed.

(** C3, as the code has it.  For a sample size between 1 and 10^6, [AF]
    and [L] between 1e-50 and 1e50, confidence between 1e-6 and
    1 - 1e-6, and a shape parameter for which the logarithms of both
    powers stay within 200, [test_time_weibull] returns
    [(L/AF) * term / N^(1/beta)] with
    [term = (-ln(1 - confidence))^(1/beta)]. *)
Theorem test_time_weibull_formula (p : ParameterSet) (N : Z) (a : R) :
  (1 <= N <= 10 ^ 6)%Z -> moderate a -> moderate (L p) ->
  interior (confidence p) -> weibull_in_range p N ->
  let term := Rpower (- ln (1 - confidence p)) (1 / beta p) in
  test_time_weibull p N (PyFloat a) =
    Ok (PyFloat ((L p / a) * term / Rpower (IZR N) (1 / beta p))).
Proof.
  intros HN Ha HL Hc Hw term.
  apply moderate_pos in Ha, HL; apply interior_open in Hc.
  destruct (weibull_in_range_powers p N N Hw) as (Hb & Ht & HwN); [lia |].
  apply test_time_weibull_eq; try assumption; try lra.
  assert ((10 ^ 6 <= 2 ^ 1023)%Z) by (vm_compute; discriminate). lia.
Qed.

Lemma neg_ln_bounds (c : R) :
  0 < c < 1 -> c <= - ln (1 - c) <= c / (1 - c).
Proof.
  intros [H0 H1]; split.
  - pose proof (exp_ineq1_le (ln (1 - c))) as H.
    rewrite exp_ln in H by lra. lra.
  - pose proof (exp_ineq1_le (ln (/ (1 - c)))) as H.
    rewrite exp_ln in H by (apply Rinv_0_lt_compat; lra).
    rewrite ln_Rinv in H by lra.
    replace (c / (1 - c)) with (/ (1 - c) - 1) by (field; lra). lra.
Qed.

Lemma ln_le_self (x : R) : 0 < x -> ln x <= x.
Proof.
  intro Hx; pose proof (exp_ineq1_le (ln x)) as H.
  rewrite exp_ln in H by assumption. lra.
Qed.

Lemma weibull_in_range_defaults : weibull_in_range defaults 30.
Proof.
  destruct (neg_ln_bounds 0.9) as [Hlo Hhi]; [lra |].
  assert (H9 : 0.9 / (1 - 0.9) = 9).
  { replace 0.9 with (9 / 10) by lra. field. }
  assert (Hhi' : - ln (1 - 0.9) <= 9) by lra.
  assert (Hb : 0 < - ln (1 - 0.9)) by lra.
  constructor; simpl.
  - rewrite Rabs_R1; lra.
  - unfold Rdiv; rewrite Rinv_1, Rmult_1_r.
    eapply Rle_trans; [apply Rabs_ln_le; assumption |].
    assert (/ - ln (1 - 0.9) <= / 0.9)
      by (apply Rinv_le_contravar; lra).
    lra.
  - rewrite Rabs_R1; unfold Rdiv; rewrite Rinv_1, Rmult_1_r.
    pose proof (ln_le_self 30); lra.
Defined.

Lemma weibull_in_range_smaller (p : ParameterSet) (N N' : Z) :
  (1 <= N' <= N)%Z -> weibull_in_range p N -> weibull_in_range p N'.
Proof.
  intros HN [Hb Ht Hn]; constructor; try assumption.
  assert (H1 : 1 <= IZR N') by (apply IZR_ge_1; lia).
  assert (Hle : ln (IZR N') <= ln (IZR N)).
  { destruct (Z.eq_dec N' N) as [-> | Hne]; [lra |].
    left; apply ln_increasing; [lra | apply IZR_lt; lia]. }
  apply Rle_trans with (ln (IZR N) / Rabs (beta p)); [| exact Hn].
  apply Rmult_le_compat_r; [| exact Hle].
  left; apply Rinv_0_lt_compat; lra.
Defined.

Lemma test_time_weibull_formula_defaults :
  test_time_weibull defaults 5 (PyFloat 25) =
    Ok (PyFloat ((87600 / 25) * Rpower (- ln (1 - 0.9)) (1 / 1)
                 / Rpower 5 (1 / 1))).
Proof.
  apply (test_time_weibull_formula defaults 5 25);
    unfold moderate, interior; simpl; try (lra || lia).
  apply (weibull_in_range_smaller defaults 30 5);
    [lia | exact weibull_in_range_defaults].
Defined.

Lemma neg_ln_tenth_ge_2 : 2 <= - ln (1 - 0.9).
Proof.
  assert (H9 : exp 2 <= 9).
  { replace 2 with (1 + 1) by ring. rewrite exp_plus.
    pose proof exp_le_3. pose proof (exp_pos 1). nra. }
  assert (Hl : ln (1 - 0.9) <= ln (exp (-2))).
  { left; apply ln_increasing; [lra |].
    replace (-2) with (Ropp 2) by lra. rewrite exp_Ropp.
    apply Rlt_le_trans with (/ 9); [lra |].
    apply Rinv_le_contravar; [apply exp_pos | exact H9]. }
  rewrite ln_exp in Hl. lra.
Qed.

(** C3 fails as stated: with the shape parameter 1/4096, inside the
    stated domain, the power [(-ln(1 - confidence)) ** 4096] raises
    [OverflowError]. *)
Lemma test_time_weibull_overflow :
  (1 <= 1)%Z /\ 0 < 25 /\ 0 < L steep_weibull /\
  0 < confidence steep_weibull < 1 /\ beta steep_weibull <> 0 /\
  test_time_weibull steep_weibull 1 (PyFloat 25) = Raise OverflowError.
Proof.
  repeat split; try (simpl; lra || lia).
  unfold test_time_weibull; simpl.
  pose proof neg_ln_tenth_ge_2 as Hb.
  rewrite math_log_ok by lra; cbn [bind].
  rewrite float_div_ok by lra; cbn [bind].
  replace (1 / / 4096) with 4096 by field.
  unfold float_pow.
  destruct (Req_dec_T 4096 0); [lra |].
  destruct (Req_dec_T (- ln (1 - 0.9)) 0); [lra |].
  destruct (Rlt_dec 0 (- ln (1 - 0.9))); [| lra].
  unfold Rpower; rewrite ranged_exp_overflow; [reflexivity |].
  assert (Hl2 : / 2 < ln 2) by apply ln_lt_2.
  assert (Hl : ln 2 <= ln (- ln (1 - 0.9))).
  { destruct (Req_dec (- ln (1 - 0.9)) 2) as [-> | Hne]; [lra |].
    left; apply ln_increasing; lra. }
  lra.
Qed.

(** C9.  With [beta = 0] the reciprocal [1/beta] raises, so
    [test_time_weibull] never returns: it raises [ZeroDivisionError]
    whenever the logarithm before it is defined (confidence below 1), for
    every sample size and acceleration factor. *)
Theorem test_time_weibull_beta_zero (p : ParameterSet) (N : Z) (AF : pynum) :
  beta p = 0 -> confidence p < 1 ->
  test_time_weibull p N AF = Raise ZeroDivisionError.
Proof.
  intros Hb Hc; unfold test_time_weibull.
  rewrite math_log_ok by lra; cbn [bind].
  rewrite Hb, float_div_zero; reflexivity.
Qed.

Lemma test_time_weibull_beta_zero_defaults :
  test_time_weibull (set_beta defaults 0) 5 (PyFloat 25) =
    Raise ZeroDivisionError.
Proof.
  apply (test_time_weibull_beta_zero (set_beta defaults 0) 5 (PyFloat 25));
    simpl; lra.
Defined.

(** C10.  [test_time_exponential] does not read [beta] and
    [test_time_weibull] does not read [reliability]: on parameter sets
    that agree everywhere else they return the same result. *)
Theorem test_times_ignore_other_model_input :
  (forall p q N AF, agree_except_beta p q ->
     test_time_exponential p N AF = test_time_exponential q N AF) /\
  (forall p q N AF, agree_except_reliability p q ->
     test_time_weibull p N AF = test_time_weibull q N AF).
Proof.
  split; intros p q N AF H.
  - destruct H as (_ & _ & _ & Hc & Hr & _ & _ & _ & _ & _ & _ & _ & HL).
    unfold test_time_exponential; now rewrite Hc, Hr, HL.
  - destruct H as (_ & _ & _ & Hc & Hb & _ & _ & _ & _ & _ & _ & _ & HL).
    unfold test_time_weibull; now rewrite Hc, Hb, HL.
Qed.

Lemma test_times_ignore_other_model_input_defaults :
  test_time_exponential defaults 5 (PyFloat 25) =
    test_time_exponential (set_beta defaults 2) 5 (PyFloat 25) /\
  test_time_weibull defaults 5 (PyFloat 25) =
    test_time_weibull (set_reliability defaults 0.8) 5 (PyFloat 25).
Proof.
  split.
  - apply (proj1 test_times_ignore_other_model_input).
    unfold agree_except_beta; simpl; repeat split.
  - apply (proj2 test_times_ignore_other_model_input).
    unfold agree_except_reliability; simpl; repeat split.
Defined.

(** ** Dependence on the sample size *)

Lemma exp_1_gt_2 : 2 < exp 1.
Proof. pose proof (exp_ineq1 1); lra. Qed.

Lemma exponential_value_decreasing (p : ParameterSet) (N1 N2 : Z) (a : R) :
  (1 <= N1 < N2)%Z -> 0 < a -> 0 < L p ->
  0 < confidence p < 1 -> 0 < reliability p < 1 ->
  exponential_value p N2 a < exponential_value p N1 a.
Proof.
  intros [H1 H12] Ha HL Hc Hr; unfold exponential_value.
  assert (Hl1 : ln (1 - confidence p) < 0) by (apply ln_neg; lra).
  assert (Hl2 : ln (reliability p) < 0) by (apply ln_neg; lra).
  assert (Hq : 0 < ln (1 - confidence p) / ln (reliability p)).
  { replace (ln (1 - confidence p) / ln (reliability p))
      with ((- ln (1 - confidence p)) / (- ln (reliability p)))
      by (field; lra).
    apply Rdiv_lt_0_compat; lra. }
  apply IZR_ge_1 in H1; apply IZR_lt in H12.
  apply Rmult_lt_compat_r; [assumption |].
  unfold Rdiv; apply Rmult_lt_compat_l; [assumption |].
  assert (Ha1 : 0 < IZR N1 * a) by (apply Rmult_lt_0_compat; lra).
  assert (Ha2 : 0 < IZR N2 * a) by (apply Rmult_lt_0_compat; lra).
  apply Rinv_lt_contravar.
  - now apply Rmult_lt_0_compat.
  - apply Rmult_lt_compat_r; assumption.
Qed.


Lemma Rinv_sign_pos (b : R) : 0 < b -> 0 < 1 / b.
Proof. intro H; apply Rdiv_lt_0_compat; lra. Qed.




Lemma small_N_bound (N : Z) : (N <= 10 ^ 6)%Z -> (N <= 2 ^ 1023)%Z.
Proof.
  assert ((10 ^ 6 <= 2 ^ 1023)%Z) by (vm_compute; discriminate). lia.
Qed.

Lemma test_time_weibull_in_range (p : ParameterSet) (Nmax N : Z) (a : R) :
  weibull_in_range p Nmax -> (1 <= N <= Nmax)%Z -> (Nmax <= 10 ^ 6)%Z ->
  a <> 0 -> 0 < confidence p < 1 ->
  test_time_weibull p N (PyFloat a) = Ok (PyFloat (weibull_value p N a)).
Proof.
  intros Hw HN Hmax Ha Hc.
  destruct (weibull_in_range_powers p Nmax N Hw HN) as (Hb & Ht & HwN).
  apply test_time_weibull_eq; try assumption.
  pose proof (small_N_bound Nmax Hmax); lia.
Qed.





(** ** The two formulas at [beta = 1] *)

Lemma ln_abs_le_20 (x : R) :
  / IZR (2 ^ 20) <= x <= IZR (2 ^ 20) -> Rabs (ln x) <= 20.
Proof.
  intros [Hlo Hhi].
  assert (H20 : IZR (2 ^ 20) <= exp 20).
  { replace 20 with (INR 20) by (rewrite INR_IZR_INZ; reflexivity).
    apply (exp_nat_lower 20). }
  assert (Hp : 0 < IZR (2 ^ 20)) by (apply IZR_lt; reflexivity).
  assert (Hx : 0 < x).
  { eapply Rlt_le_trans; [| exact Hlo]. now apply Rinv_0_lt_compat. }
  assert (He : exp (- (20)) <= x).
  { rewrite exp_Ropp.
    eapply Rle_trans; [| exact Hlo].
    apply Rinv_le_contravar; assumption. }
  assert (Hlow : - (20) <= ln x).
  { rewrite <- (ln_exp (- (20))).
    destruct (Req_dec (exp (- (20))) x) as [<- | Hne]; [lra |].
    left; apply ln_increasing; [apply exp_pos | lra]. }
  assert (Hupp : ln x <= 20).
  { rewrite <- (ln_exp 20).
    destruct (Req_dec x (exp 20)) as [-> | Hne]; [lra |].
    left; apply ln_increasing; [assumption | lra]. }
  apply Rabs_le; lra.
Qed.

Lemma interior_term_bounds (c : R) :
  interior c -> / IZR (2 ^ 20) <= - ln (1 - c) <= IZR (2 ^ 20).
Proof.
  intro Hc; unfold interior in Hc.
  destruct (neg_ln_bounds c) as [Hlo Hhi]; [lra |].
  assert (H20 : IZR (2 ^ 20) = 1048576) by reflexivity.
  rewrite H20; split.
  - apply Rle_trans with 1e-6; [| lra].
    apply Rle_trans with (/ 1000000); [| lra].
    apply Rinv_le_contravar; lra.
  - eapply Rle_trans; [exact Hhi |].
    apply Rmult_le_reg_r with (1 - c); [lra |].
    unfold Rdiv; rewrite Rmult_assoc, Rinv_l by lra. nra.
Qed.

Lemma weibull_in_range_beta_1 (p : ParameterSet) (N : Z) :
  interior (confidence p) -> beta p = 1 -> (1 <= N <= 10 ^ 6)%Z ->
  weibull_in_range p N.
Proof.
  intros Hc Hb HN; constructor; rewrite Hb.
  - rewrite Rabs_R1; lra.
  - unfold Rdiv; rewrite Rinv_1, Rmult_1_r.
    pose proof (ln_abs_le_20 _ (interior_term_bounds _ Hc)); lra.
  - rewrite Rabs_R1; unfold Rdiv; rewrite Rinv_1, Rmult_1_r.
    assert (H : Rabs (ln (IZR N)) <= 20).
    { apply ln_abs_le_20; split.
      - apply Rle_trans with 1; [| apply IZR_le; lia].
        apply Rle_trans with (/ 1); [| rewrite Rinv_1; lra].
        apply Rinv_le_contravar; [lra | apply IZR_le; discriminate].
      - apply IZR_le. assert ((10 ^ 6 <= 2 ^ 20)%Z) by (vm_compute; discriminate).
        lia. }
    apply Rabs_bound in H; lra.
Qed.

Lemma weibull_value_beta_1 (p : ParameterSet) (N : Z) (a : R) :
  (1 <= N)%Z -> 0 < confidence p < 1 -> beta p = 1 ->
  weibull_value p N a = (L p / a) * (- ln (1 - confidence p)) / IZR N.
Proof.
  intros HN Hc Hb; unfold weibull_value.
  assert (Hl : ln (1 - confidence p) < 0) by (apply ln_neg; lra).
  apply IZR_ge_1 in HN.
  rewrite Hb. replace (1 / 1) with 1 by field.
  rewrite !Rpower_1 by lra.
  reflexivity.
Qed.

Lemma values_differ_at_beta_1 (p : ParameterSet) (N : Z) (a : R) :
  (1 <= N)%Z -> 0 < a -> 0 < L p ->
  0 < confidence p < 1 -> 0 < reliability p < 1 -> beta p = 1 ->
  ln (reliability p) <> -1 ->
  weibull_value p N a <> exponential_value p N a.
Proof.
  intros HN Ha HL Hc Hr Hb Hs.
  assert (HN' : 1 <= IZR N) by now apply IZR_ge_1.
  assert (Hl1 : ln (1 - confidence p) < 0) by (apply ln_neg; lra).
  assert (Hl2 : ln (reliability p) < 0) by (apply ln_neg; lra).
  rewrite weibull_value_beta_1 by assumption.
  unfold exponential_value.
  set (l := ln (1 - confidence p)) in *.
  set (s := ln (reliability p)) in *.
  assert (Hpos : 0 < L p / (IZR N * a)).
  { apply Rdiv_lt_0_compat; [assumption | nra]. }
  assert (Hw : L p / a * - l / IZR N = L p / (IZR N * a) * (- l))
    by (field; lra).
  rewrite Hw; intro H.
  apply Rmult_eq_reg_l in H; [| lra].
  assert (Hls : - l * s = l) by (rewrite H; field; lra).
  apply Hs. nra.
Qed.

(** C6, as the code has it.  For a sample size between 1 and 10^6, [AF]
    and [L] between 1e-50 and 1e50, confidence and reliability between
    1e-6 and 1 - 1e-6, and [beta = 1]: whenever [ln(reliability)] differs
    from -1 by at least 1e-6, both functions return and their results
    differ, whether or not [ln(reliability) = ln(1 - confidence)]. *)
Theorem weibull_beta_1_differs_from_exponential
        (p : ParameterSet) (N : Z) (a : R) :
  (1 <= N <= 10 ^ 6)%Z -> moderate a -> moderate (L p) ->
  interior (confidence p) -> interior (reliability p) -> beta p = 1 ->
  1e-6 <= Rabs (ln (reliability p) + 1) ->
  exists w e,
    test_time_weibull p N (PyFloat a) = Ok (PyFloat w) /\
    test_time_exponential p N (PyFloat a) = Ok (PyFloat e) /\
    w <> e.
Proof.
  intros HN Ha HL Hc Hr Hb Hs.
  pose proof (weibull_in_range_beta_1 p N Hc Hb HN) as Hw.
  apply moderate_pos in Ha, HL; apply interior_open in Hc, Hr.
  assert (HN' : 1 <= IZR N) by (apply IZR_ge_1; lia).
  exists (weibull_value p N a), (exponential_value p N a).
  split; [apply (test_time_weibull_in_range p N); try assumption; lra || lia |].
  split.
  { apply test_time_exponential_eq; try lra; try nra.
    pose proof (small_N_bound N); lia. }
  apply values_differ_at_beta_1; try assumption; try lia.
  intro H; rewrite H in Hs.
  replace (-1 + 1) with 0 in Hs by lra. rewrite Rabs_R0 in Hs. lra.
Qed.

Lemma ln_reliability_defaults : -1 / 9 <= ln (reliability defaults) < 0.
Proof.
  simpl; split; [| apply ln_neg; lra].
  destruct (neg_ln_bounds 0.1) as [_ Hhi]; [lra |].
  replace (1 - 0.1) with 0.9 in Hhi by lra.
  assert (H9 : 0.1 / 0.9 = 1 / 9).
  { replace 0.1 with (1 / 10) by lra. replace 0.9 with (9 / 10) by lra. field. }
  lra.
Defined.

Lemma weibull_beta_1_differs_from_exponential_defaults :
  exists w e,
    test_time_weibull defaults 5 (PyFloat 25) = Ok (PyFloat w) /\
    test_time_exponential defaults 5 (PyFloat 25) = Ok (PyFloat e) /\
    w <> e.
Proof.
  apply (weibull_beta_1_differs_from_exponential defaults 5 25);
    unfold moderate, interior; try (simpl; lra || lia).
  pose proof ln_reliability_defaults as H.
  rewrite Rabs_pos_eq; lra.
Defined.

(** C6 fails as stated: with confidence and reliability both 1/2 the
    stated condition [ln(reliability) = -(-ln(1 - confidence))] holds,
    and the two results differ. *)
Lemma weibull_beta_1_differs_at_half :
  (1 <= 1)%Z /\ 0 < L neutral /\ 0 < confidence neutral < 1 /\
  0 < reliability neutral < 1 /\ beta neutral = 1 /\
  ln (reliability neutral) = - (- ln (1 - confidence neutral)) /\
  test_time_weibull neutral 1 (PyFloat 1) <>
    test_time_exponential neutral 1 (PyFloat 1).
Proof.
  repeat split; try (simpl; lra || lia).
  - simpl. replace (1 - 1 / 2) with (1 / 2) by field. ring.
  - assert (Hc : interior (confidence neutral)) by (unfold interior; simpl; lra).
    rewrite (test_time_weibull_in_range neutral 1);
      try (simpl; lra || lia);
      [| apply weibull_in_range_beta_1; [exact Hc | reflexivity | lia]].
    rewrite test_time_exponential_eq;
      try (simpl; lra); [| vm_compute; discriminate].
    intro H; injection H as H; revert H.
    apply values_differ_at_beta_1; try (simpl; lra || lia).
    simpl; intro H.
    assert (He : exp (ln (1 / 2)) = exp (Ropp 1)) by (rewrite H; f_equal; lra).
    rewrite exp_ln in He by lra.
    rewrite exp_Ropp in He.
    pose proof exp_1_gt_2 as H2.
    assert (H3 : exp 1 = 2).
    { apply Rmult_eq_reg_l with (/ exp 1).
      - rewrite Rinv_l by lra. rewrite <- He. field.
      - apply Rinv_neq_0_compat; lra. }
    lra.
Qed.

(** ** Failures of [test_time_exponential] *)

Lemma num_div_raise (a b : pynum) (e : PyError) :
  num_div a b = Raise e -> e = ZeroDivisionError.
Proof.
  unfold num_div, float_div; destruct a, b; cbn [bind];
    match goal with
    | |- context [Req_dec_T ?x ?y] => destruct (Req_dec_T x y)
    end; cbn [bind]; congruence.
Qed.

(** C8, as the code has it.  [test_time_exponential] raises whenever
    confidence is at least 1 or reliability is exactly 1 or at most 0;
    in particular it raises at confidence 1.  The exception is
    [ValueError] from [math.log], [ZeroDivisionError] from a division,
    or [OverflowError] from the conversion of [N].  For reliability above
    1, confidence below 1, a sample size between 1 and 10^6 and a
    non-zero float factor it does not raise: it returns a float, and that
    float is negative when [AF] and [L] lie between 1e-50 and 1e50,
    confidence between 1e-6 and 1 - 1e-6 and reliability between
    1 + 1e-6 and 1e6. *)
Theorem test_time_exponential_raises (p : ParameterSet) (N : Z) :
  (forall AF,
     1 <= confidence p \/ reliability p = 1 \/ reliability p <= 0 ->
     exists e, test_time_exponential p N AF = Raise e /\
               (e = ValueError \/ e = ZeroDivisionError \/ e = OverflowError)) /\
  (forall a,
     1 < reliability p -> confidence p < 1 -> (1 <= N <= 10 ^ 6)%Z -> a <> 0 ->
     exists t,
       test_time_exponential p N (PyFloat a) = Ok (PyFloat t) /\
       (moderate a -> moderate (L p) -> interior (confidence p) ->
        1 + 1e-6 <= reliability p <= 1e6 -> t < 0)).
Proof.
  split.
  - intros AF H; unfold test_time_exponential.
    destruct (int_to_float N) as [Nf | e] eqn:HNf; cbn [bind].
    2:{ exists e; split; [reflexivity |].
        right; right; now apply (int_to_float_raise N). }
    destruct (num_div (PyFloat (L p)) (num_mul (PyFloat Nf) AF))
      as [d | e] eqn:Hd; cbn [bind].
    + destruct (Rlt_dec 0 (1 - confidence p)) as [Hc | Hc].
      * rewrite math_log_ok by assumption; cbn [bind].
        destruct H as [H | [H | H]]; [lra | |].
        -- rewrite H, math_log_ok by lra; cbn [bind].
           rewrite ln_1, float_div_zero; cbn [bind].
           exists ZeroDivisionError; auto.
        -- rewrite math_log_err by assumption.
           exists ValueError; auto.
      * rewrite math_log_err by lra.
        exists ValueError; auto.
    + exists e; split; [reflexivity | right; left].
      now apply (num_div_raise _ _ _ Hd).
  - intros a Hr Hc HN Ha.
    assert (HN1 : 1 <= IZR N) by (apply IZR_ge_1; lia).
    eexists; split.
    + apply test_time_exponential_eq; try lra.
      * pose proof (small_N_bound N); lia.
      * nra.
    + intros Hma HmL Hic Hrr.
      apply moderate_pos in Hma, HmL.
      assert (H1 : ln (1 - confidence p) < 0)
        by (apply ln_neg; destruct Hic; lra).
      assert (H2 : 0 < ln (reliability p))
        by (rewrite <- ln_1; apply ln_increasing; lra).
      assert (H3 : 0 < - ln (1 - confidence p) / ln (reliability p))
        by (apply Rdiv_lt_0_compat; lra).
      assert (H4 : 0 < L p / (IZR N * a))
        by (apply Rdiv_lt_0_compat; [lra | nra]).
      unfold exponential_value.
      replace (ln (1 - confidence p) / ln (reliability p))
        with (- (- ln (1 - confidence p) / ln (reliability p)))
        by (field; lra).
      nra.
Qed.

Lemma test_time_exponential_raises_confidence_1 :
  let p := {| T_use_C := 25; RH_use := 50; Ea := 0.9; confidence := 1;
              reliability := 0.9; beta := 1; T_stress_C := 85;
              RH_stress := 85; n := 3; m := 2; D_uv := 0.8; D_tc := 0.9;
              D_mech := 0.95; L := 87600 |} in
  exists e, test_time_exponential p 5 (PyFloat 25) = Raise e /\
            (e = ValueError \/ e = ZeroDivisionError \/ e = OverflowError).
Proof.
  intro p.
  apply (proj1 (test_time_exponential_raises p 5) (PyFloat 25)).
  left; simpl; lra.
Defined.

(** C8 fails for reliability above 1: at the default values with
    reliability 2 the function returns a negative number instead of
    raising. *)
Lemma test_time_exponential_returns_at_reliability_2 :
  let p := set_reliability defaults 2 in
  1 <= reliability p /\
  exists t, test_time_exponential p 5 (PyFloat 25) = Ok (PyFloat t) /\ t < 0.
Proof.
  intro p; split; [simpl; lra |].
  exists (exponential_value p 5 25); split.
  - apply test_time_exponential_eq; simpl; try lra.
    vm_compute; discriminate.
  - unfold exponential_value; simpl.
    assert (H1 : ln (1 - 0.9) < 0) by (apply ln_neg; lra).
    assert (H2 : 0 < ln 2) by (rewrite <- ln_1; apply ln_increasing; lra).
    assert (H3 : 0 < - ln (1 - 0.9) / ln 2) by (apply Rdiv_lt_0_compat; lra).
    replace (ln (1 - 0.9) / ln 2) with (- (- ln (1 - 0.9) / ln 2))
      by (field; lra).
    assert (H4 : 0 < 87600 / (5 * 25)) by lra.
    nra.
Qed.

(** ** Zero humidity and zero Kelvin *)

Lemma AF_eyring_RH_use_zero (p : ParameterSet) :
  RH_use p = 0 -> AF_eyring p = Raise ZeroDivisionError.
Proof.
  intro H; unfold AF_eyring; now rewrite H, float_div_zero.
Qed.

Lemma AF_peck_RH_use_zero (p : ParameterSet) :
  RH_use p = 0 -> 0 < n p -> AF_peck p = Raise ZeroDivisionError.
Proof.
  intros H Hn; unfold AF_peck, float_div.
  destruct (Req_dec_T (RH_stress p) 0); [reflexivity |]; cbn [bind].
  rewrite H; unfold float_pow.
  destruct (Req_dec_T (- n p) 0); [lra |].
  destruct (Req_dec_T (0 / RH_stress p) 0) as [_ | Hz].
  - destruct (Rlt_dec (- n p) 0); [reflexivity | lra].
  - exfalso; apply Hz; unfold Rdiv; ring.
Qed.

Lemma arrhenius_term_T_use_zero (p : ParameterSet) :
  T_use_K p = 0 -> arrhenius_term p = Raise ZeroDivisionError.
Proof.
  intro H; unfold arrhenius_term.
  rewrite (float_div_ok (Ea p) k) by (pose proof k_pos; lra); cbn [bind].
  now rewrite H, float_div_zero.
Qed.

Lemma AF_calculations_RH_use_zero (p : ParameterSet) :
  RH_use p = 0 -> exists e, AF_calculations p = Raise e.
Proof.
  intro H; unfold AF_calculations.
  destruct (AF_arrhenius p) as [a | e]; cbn [bind];
    [| exists e; reflexivity].
  destruct (AF_peck p) as [w | e]; cbn [bind]; [| exists e; reflexivity].
  rewrite AF_eyring_RH_use_zero by assumption; cbn [bind].
  exists ZeroDivisionError; reflexivity.
Qed.

(** C7, as the code has it.  With [RH_use = 0] the Eyring factor always
    raises [ZeroDivisionError], the Peck factor raises it when its
    exponent [n] is positive, and the acceleration-factor block as a whole
    raises an exception, so no factor is handed on.  With [T_use_K = 0]
    the common exponential term raises [ZeroDivisionError], and so does
    the block. *)
Theorem AF_calculations_zero_inputs (p : ParameterSet) :
  (RH_use p = 0 ->
     AF_eyring p = Raise ZeroDivisionError /\
     (0 < n p -> AF_peck p = Raise ZeroDivisionError) /\
     exists e, AF_calculations p = Raise e) /\
  (T_use_K p = 0 ->
     arrhenius_term p = Raise ZeroDivisionError /\
     AF_calculations p = Raise ZeroDivisionError).
Proof.
  split.
  - intro H; split; [| split].
    + now apply AF_eyring_RH_use_zero.
    + now apply AF_peck_RH_use_zero.
    + now apply AF_calculations_RH_use_zero.
  - intro H; split.
    + now apply arrhenius_term_T_use_zero.
    + unfold AF_calculations, AF_arrhenius.
      now rewrite arrhenius_term_T_use_zero.
Qed.

Lemma AF_calculations_zero_inputs_dry_use :
  AF_eyring dry_use = Raise ZeroDivisionError /\
  exists e, AF_calculations dry_use = Raise e.
Proof.
  destruct (proj1 (AF_calculations_zero_inputs dry_use) eq_refl)
    as (H1 & _ & H2).
  split; assumption.
Defined.

(** C7 fails for the Peck factor taken alone: with [RH_use = 0] and
    [n = -1] its expression evaluates to the float 0 without raising. *)
Lemma AF_peck_returns_at_zero_humidity :
  RH_use dry_use = 0 /\ AF_peck dry_use = Ok (PyFloat 0).
Proof.
  split; [reflexivity |].
  unfold AF_peck.
  rewrite float_div_ok by (simpl; lra); cbn [bind].
  unfold float_pow.
  destruct (Req_dec_T (- n dry_use) 0) as [H | _]; [simpl in H; lra |].
  destruct (Req_dec_T (RH_use dry_use / RH_stress dry_use) 0) as [_ | H];
    [| exfalso; apply H; simpl; unfold Rdiv; ring].
  destruct (Rlt_dec (- n dry_use) 0) as [H | _]; [simpl in H; lra |].
  cbn [bind].
  rewrite arrhenius_term_ok.
  - cbn [bind num_mul]. do 2 f_equal. ring.
  - unfold T_use_K; simpl; lra.
  - unfold T_stress_K; simpl; lra.
  - replace (1 / T_use_K dry_use - 1 / T_stress_K dry_use) with 0
      by (unfold T_use_K, T_stress_K; simpl; lra).
    rewrite Rmult_0_r, Rabs_R0; lra.
Qed.

(** ** Positivity of the outputs *)

Lemma mapM_Forall {A B : Type} (f : A -> result B) (P : B -> Prop)
      (l : list A) :
  (forall x, In x l -> exists y, f x = Ok y /\ P y) ->
  exists ys, mapM f l = Ok ys /\ Forall P ys /\ length ys = length l.
Proof.
  induction l as [| x xs IH]; intro H; cbn [mapM].
  - exists []; repeat split; constructor.
  - destruct (H x (or_introl eq_refl)) as (y & Hy & HP).
    destruct IH as (ys & Hys & HF & Hlen).
    { intros z Hz; apply H; now right. }
    exists (y :: ys); rewrite Hy; cbn [bind]; rewrite Hys; cbn [bind].
    repeat split; [now constructor | cbn; now rewrite Hlen].
Qed.

Lemma In_N_range (N : Z) : In N N_range -> (1 <= N <= 30)%Z.
Proof.
  unfold N_range; rewrite in_map_iff.
  intros (i & <- & Hi); apply in_seq in Hi; lia.
Qed.

Lemma round_half_even_nonneg (r : R) : 0 <= r -> (0 <= round_half_even r)%Z.
Proof.
  intro Hr; unfold round_half_even.
  assert (H0 : (0 <= Zfloor r)%Z) by (apply Zfloor_lub; simpl; lra).
  repeat match goal with
         | |- context [if ?c then _ else _] => destruct c
         end; lia.
Qed.

Lemma round4_nonneg (x : R) :
  0 <= x -> exists v, round4 (PyFloat x) = Ok v /\ 0 <= v.
Proof.
  intro Hx; eexists; split; [reflexivity |].
  assert (H : (0 <= round_half_even (x * 10000))%Z)
    by (apply round_half_even_nonneg; lra).
  apply IZR_le in H.
  apply Rmult_le_pos; [exact H | lra].
Qed.

Lemma Zceil_pos (x : R) : 0 < x -> (1 <= Zceil x)%Z.
Proof.
  intro Hx. pose proof (Zceil_bound x) as [_ Hb].
  assert (H : (0 < Zceil x)%Z) by (apply lt_IZR; lra).
  lia.
Qed.

Lemma sample_table_nonneg (f : Z -> result pynum) :
  (forall N, (1 <= N <= 30)%Z -> exists t, f N = Ok (PyFloat t) /\ 0 < t) ->
  exists tb, sample_table f = Ok tb /\ table_entries_nonneg tb.
Proof.
  intro Hf; unfold sample_table.
  destruct (mapM_Forall (fun N => t <- f N ;; round4 t)
              (fun h => 0 <= h) N_range) as (hs & -> & Hhs & _).
  { intros N HN; apply In_N_range in HN.
    destruct (Hf N HN) as (t & -> & Ht); cbn [bind].
    apply round4_nonneg; lra. }
  destruct (mapM_Forall
              (fun N => t <- f N ;; d <- num_div t (PyFloat 24) ;; round4 d)
              (fun d => 0 <= d) N_range) as (ds & -> & Hds & _).
  { intros N HN; apply In_N_range in HN.
    destruct (Hf N HN) as (t & -> & Ht); cbn [bind num_div].
    rewrite float_div_ok by lra; cbn [bind].
    apply round4_nonneg; lra. }
  destruct (mapM_Forall
              (fun N => t <- f N ;; d <- num_div t (PyFloat 24) ;; math_ceil d)
              (fun r => (1 <= r)%Z) N_range) as (rs & -> & Hrs & _).
  { intros N HN; apply In_N_range in HN.
    destruct (Hf N HN) as (t & -> & Ht); cbn [bind num_div].
    rewrite float_div_ok by lra; cbn [bind math_ceil].
    eexists; split; [reflexivity | apply Zceil_pos; lra]. }
  cbn [bind]; eexists; split; [reflexivity |].
  unfold table_entries_nonneg; cbn; repeat split; try assumption.
  apply Forall_forall; exact In_N_range.
Qed.


Lemma point_test_time_pos (p : ParameterSet) (a : R) :
  0 < L p -> 0 < a ->
  point_test_time p (PyFloat a) = Ok (PyFloat (L p / a)) /\ 0 < L p / a.
Proof.
  intros HL Ha; unfold point_test_time; cbn [num_div].
  rewrite float_div_ok by lra; split; [reflexivity |].
  now apply Rdiv_lt_0_compat.
Qed.

Lemma df_exp_nonneg (p : ParameterSet) (a : R) :
  0 < a -> 0 < L p -> 0 < confidence p < 1 -> 0 < reliability p < 1 ->
  exists e, df_exp p (PyFloat a) = Ok e /\ table_entries_nonneg e.
Proof.
  intros Ha HL Hc Hr.
  apply (sample_table_nonneg (fun N => test_time_exponential p N (PyFloat a))).
  intros N HN; exists (exponential_value p N a); split.
  - apply test_time_exponential_eq; try lra.
    + assert ((30 <= 2 ^ 1023)%Z) by (vm_compute; discriminate). lia.
    + assert (1 <= IZR N) by (apply IZR_ge_1; lia). nra.
  - apply exponential_value_pos; try assumption; lia.
Qed.






(** *** A rounded entry that is zero, and a factor that is zero *)


Lemma mapM_cons_inv {A B : Type} (f : A -> result B) (x : A) (xs : list A)
      (ys : list B) :
  mapM f (x :: xs) = Ok ys ->
  exists y ys', f x = Ok y /\ ys = y :: ys'.
Proof.
  cbn [mapM]; destruct (f x) as [y | e]; cbn [bind]; [| discriminate].
  destruct (mapM f xs) as [ys' | e]; cbn [bind]; [| discriminate].
  intro H; injection H as <-; eauto.
Qed.

Lemma sample_table_first_hours (f : Z -> result pynum) (tb : SampleTable) :
  sample_table f = Ok tb ->
  exists h rest, (t <- f 1%Z ;; round4 t) = Ok h /\
                 test_time_hours tb = h :: rest.
Proof.
  unfold sample_table.
  destruct (mapM (fun N => t <- f N ;; round4 t) N_range) as [hs | e] eqn:Hhs;
    cbn [bind]; [| discriminate].
  change N_range with (1%Z :: map Z.of_nat (seq 2 29)) in Hhs.
  apply mapM_cons_inv in Hhs as (h & rest & Hh & ->).
  repeat match goal with
         | |- context [mapM ?g N_range] => destruct (mapM g N_range); cbn [bind]
         end; try discriminate.
  intro H; injection H as <-; cbn; eauto.
Qed.









(** * Further properties of the script *)

(** ** The acceleration factors against each other *)

Lemma Rpower_1_base (y : R) : Rpower 1 y = 1.
Proof. unfold Rpower; now rewrite ln_1, Rmult_0_r, exp_0. Qed.

Lemma float_pow_1_base (y : R) : float_pow 1 y = Ok (PyFloat 1).
Proof.
  rewrite float_pow_pos; [now rewrite Rpower_1_base | lra |].
  rewrite ln_1, Rmult_0_r, Rabs_R0; lra.
Qed.

(** Without humidity stress (equal, non-zero humidities) the Peck and the
    Eyring factor both reduce to the Arrhenius factor, whatever the
    exponents. *)
Theorem AF_humidity_models_reduce_to_arrhenius (p : ParameterSet) :
  RH_use p = RH_stress p -> RH_use p <> 0 ->
  AF_peck p = AF_arrhenius p /\ AF_eyring p = AF_arrhenius p.
Proof.
  intros Heq Hnz; unfold AF_peck, AF_eyring, AF_arrhenius.
  rewrite <- Heq, float_div_ok by assumption; cbn [bind].
  replace (RH_use p / RH_use p) with 1 by (field; assumption).
  rewrite !float_pow_1_base; cbn [bind].
  destruct (arrhenius_term p) as [e | e]; cbn [bind num_mul];
    [| split; reflexivity].
  now rewrite Rmult_1_l.
Qed.

Lemma AF_humidity_models_reduce_to_arrhenius_neutral :
  AF_peck neutral = AF_arrhenius neutral /\
  AF_eyring neutral = AF_arrhenius neutral.
Proof.
  apply AF_humidity_models_reduce_to_arrhenius; simpl; [reflexivity | lra].
Defined.

(** ** The sample-size data frames *)

Lemma mapM_nth {A B : Type} (f : A -> result B) (l : list A) (ys : list B) :
  mapM f l = Ok ys ->
  length ys = length l /\
  forall i x, nth_error l i = Some x ->
              exists y, f x = Ok y /\ nth_error ys i = Some y.
Proof.
  revert ys; induction l as [| a l IH]; intros ys; cbn [mapM].
  - intro H; injection H as <-; split; [reflexivity |].
    intros [| i] x; discriminate.
  - destruct (f a) as [y | e] eqn:Hy; cbn [bind]; [| discriminate].
    destruct (mapM f l) as [ys' | e]; cbn [bind]; [| discriminate].
    intro H; injection H as <-.
    destruct (IH ys' eq_refl) as (Hlen & Hnth).
    split; [cbn; now rewrite Hlen |].
    intros [| i] x Hx; cbn in Hx |- *.
    + injection Hx as <-; eauto.
    + now apply Hnth.
Qed.

Lemma length_N_range : length N_range = 30%nat.
Proof. reflexivity. Qed.

Lemma nth_error_N_range (i : nat) :
  (i < 30)%nat -> nth_error N_range i = Some (Z.of_nat (S i)).
Proof.
  intro Hi; unfold N_range.
  rewrite nth_error_map.
  assert (H : nth_error (seq 1 30) i = Some (S i)).
  { rewrite nth_error_nth' with (d := O) by (rewrite length_seq; exact Hi).
    now rewrite seq_nth. }
  now rewrite H.
Qed.


Lemma round_half_even_le (r1 r2 : R) :
  r1 <= r2 -> (round_half_even r1 <= round_half_even r2)%Z.
Proof.
  intro H.
  pose proof (Zfloor_le _ _ H) as Hf.
  assert (Hlo : forall r, (Zfloor r <= round_half_even r <= Zfloor r + 1)%Z).
  { intro r; unfold round_half_even.
    repeat match goal with
           | |- context [if ?c then _ else _] => destruct c
           end; lia. }
  destruct (Z.eq_dec (Zfloor r1) (Zfloor r2)) as [Heq | Hne].
  - unfold round_half_even; rewrite Heq.
    repeat match goal with
           | |- context [if ?c then _ else _] => destruct c
           end; try lia; lra.
  - pose proof (Hlo r1); pose proof (Hlo r2); lia.
Qed.

Lemma round4_inv (a : pynum) (h : R) :
  round4 a = Ok h ->
  exists t, a = PyFloat t /\ h = IZR (round_half_even (t * 10000)) / 10000.
Proof.
  destruct a; cbn [round4]; [| discriminate].
  intro H; injection H as <-; eauto.
Qed.


Lemma div24 (t : R) : num_div (PyFloat t) (PyFloat 24) = Ok (PyFloat (t / 24)).
Proof. cbn [num_div]; now rewrite float_div_ok by lra. Qed.

Lemma sample_table_rows_exact (f : Z -> result pynum) (tb : SampleTable) :
  sample_table f = Ok tb ->
  sample_size tb = N_range /\
  length (test_time_hours tb) = 30%nat /\
  length (test_time_days tb) = 30%nat /\
  length (rounded_days tb) = 30%nat /\
  forall i, (i < 30)%nat ->
    exists t,
      f (Z.of_nat (S i)) = Ok (PyFloat t) /\
      nth_error (test_time_hours tb) i =
        Some (IZR (round_half_even (t * 10000)) / 10000) /\
      nth_error (test_time_days tb) i =
        Some (IZR (round_half_even (t / 24 * 10000)) / 10000) /\
      nth_error (rounded_days tb) i = Some (Zceil (t / 24)).
Proof.
  unfold sample_table.
  destruct (mapM (fun N => t <- f N ;; round4 t) N_range)
    as [hs | e] eqn:Hhs; cbn [bind]; [| discriminate].
  destruct (mapM (fun N => t <- f N ;; d <- num_div t (PyFloat 24) ;; round4 d)
              N_range) as [ds | e] eqn:Hds; cbn [bind]; [| discriminate].
  destruct (mapM (fun N => t <- f N ;; d <- num_div t (PyFloat 24) ;;
                           math_ceil d) N_range)
    as [rs | e] eqn:Hrs; cbn [bind]; [| discriminate].
  intro H; injection H as <-.
  cbn [sample_size test_time_hours test_time_days rounded_days].
  apply mapM_nth in Hhs as (Lh & Hh).
  apply mapM_nth in Hds as (Ld & Hd).
  apply mapM_nth in Hrs as (Lr & Hr).
  rewrite length_N_range in Lh, Ld, Lr.
  repeat (split; [assumption || reflexivity |]).
  intros i Hi; pose proof (nth_error_N_range i Hi) as HN.
  destruct (Hh _ _ HN) as (h & Hfh & Hnh).
  destruct (Hd _ _ HN) as (d & Hfd & Hnd).
  destruct (Hr _ _ HN) as (r & Hfr & Hnr).
  destruct (f (Z.of_nat (S i))) as [a | e]; cbn [bind] in *; [| discriminate].
  apply round4_inv in Hfh as (t & -> & ->).
  rewrite div24 in Hfd, Hfr; cbn [bind round4 math_ceil] in Hfd, Hfr.
  injection Hfd as <-; injection Hfr as <-.
  exists t; split; [reflexivity |].
  split; [exact Hnh |]. split; [exact Hnd | exact Hnr].
Qed.



Lemma nth_error_lt {A : Type} (l : list A) (i : nat) (x : A) :
  nth_error l i = Some x -> (i < length l)%nat.
Proof. intro H; apply nth_error_Some; congruence. Qed.

Lemma some_inj {A : Type} (x y : A) : Some x = Some y -> x = y.
Proof. congruence. Qed.

Lemma sample_table_non_increasing (f : Z -> result pynum) (v : Z -> R)
      (tb : SampleTable) :
  (forall N t, (1 <= N <= 30)%Z -> f N = Ok (PyFloat t) -> t = v N) ->
  (forall N1 N2, (1 <= N1 <= N2)%Z -> v N2 <= v N1) ->
  sample_table f = Ok tb ->
  non_increasing (test_time_hours tb) /\
  non_increasing (test_time_days tb) /\
  non_increasingZ (rounded_days tb).
Proof.
  intros Hf Hv Htb.
  destruct (sample_table_rows_exact f tb Htb) as (_ & Lh & Ld & Lr & Hrows).
  assert (Hrow : forall i, (i < 30)%nat ->
            nth_error (test_time_hours tb) i =
              Some (IZR (round_half_even (v (Z.of_nat (S i)) * 10000)) / 10000) /\
            nth_error (test_time_days tb) i =
              Some (IZR (round_half_even (v (Z.of_nat (S i)) / 24 * 10000))
                    / 10000) /\
            nth_error (rounded_days tb) i = Some (Zceil (v (Z.of_nat (S i)) / 24))).
  { intros i Hi; destruct (Hrows i Hi) as (t & Ht & H).
    apply Hf in Ht; [| lia]. rewrite <- Ht; exact H. }
  assert (Hmono : forall i j, (i <= j)%nat ->
            v (Z.of_nat (S j)) <= v (Z.of_nat (S i)))
    by (intros i j Hij; apply Hv; lia).
  split; [| split]; intros i j x y Hij Hx Hy.
  - pose proof (nth_error_lt _ _ _ Hx) as Hi; rewrite Lh in Hi.
    pose proof (nth_error_lt _ _ _ Hy) as Hj; rewrite Lh in Hj.
    destruct (Hrow i Hi) as (Hi' & _); destruct (Hrow j Hj) as (Hj' & _).
    rewrite Hi' in Hx; rewrite Hj' in Hy.
    apply some_inj in Hx, Hy; subst x y.
    pose proof (Hmono i j Hij) as Hm.
    assert (Hr : (round_half_even (v (Z.of_nat (S j)) * 10000)
                  <= round_half_even (v (Z.of_nat (S i)) * 10000))%Z)
      by (apply round_half_even_le; lra).
    apply IZR_le in Hr; lra.
  - pose proof (nth_error_lt _ _ _ Hx) as Hi; rewrite Ld in Hi.
    pose proof (nth_error_lt _ _ _ Hy) as Hj; rewrite Ld in Hj.
    destruct (Hrow i Hi) as (_ & Hi' & _); destruct (Hrow j Hj) as (_ & Hj' & _).
    rewrite Hi' in Hx; rewrite Hj' in Hy.
    apply some_inj in Hx, Hy; subst x y.
    pose proof (Hmono i j Hij) as Hm.
    assert (Hr : (round_half_even (v (Z.of_nat (S j)) / 24 * 10000)
                  <= round_half_even (v (Z.of_nat (S i)) / 24 * 10000))%Z)
      by (apply round_half_even_le; lra).
    apply IZR_le in Hr; lra.
  - pose proof (nth_error_lt _ _ _ Hx) as Hi; rewrite Lr in Hi.
    pose proof (nth_error_lt _ _ _ Hy) as Hj; rewrite Lr in Hj.
    destruct (Hrow i Hi) as (_ & _ & Hi'); destruct (Hrow j Hj) as (_ & _ & Hj').
    rewrite Hi' in Hx; rewrite Hj' in Hy.
    apply some_inj in Hx, Hy; subst x y.
    pose proof (Hmono i j Hij) as Hm.
    apply Zceil_le; lra.
Qed.


(** What [test_time_weibull] returns, when it returns, for a positive
    shape parameter: the power of the confidence term as the float it
    became (possibly [0.0]), scaled by [L/AF] and divided by
    [N^(1/beta)]. *)
Lemma test_time_weibull_inv (p : ParameterSet) (N : Z) (a t : R) :
  0 < confidence p < 1 -> 0 < beta p -> (1 <= N)%Z ->
  test_time_weibull p N (PyFloat a) = Ok (PyFloat t) ->
  exists tv,
    ranged (Rpower (- ln (1 - confidence p)) (1 / beta p)) = Ok tv /\
    t = L p / a * tv / Rpower (IZR N) (1 / beta p).
Proof.
  intros Hc Hb HN; unfold test_time_weibull.
  assert (Hl : ln (1 - confidence p) < 0) by (apply ln_neg; lra).
  assert (He : 0 < 1 / beta p) by now apply Rinv_sign_pos.
  assert (HN1 : 1 <= IZR N) by now apply IZR_ge_1.
  rewrite math_log_ok by lra; cbn [bind].
  rewrite !float_div_ok by lra; cbn [bind].
  unfold float_pow at 1.
  destruct (Req_dec_T (1 / beta p) 0); [lra |].
  destruct (Req_dec_T (- ln (1 - confidence p)) 0); [lra |].
  destruct (Rlt_dec 0 (- ln (1 - confidence p))); [| lra].
  destruct (ranged (Rpower (- ln (1 - confidence p)) (1 / beta p)))
    as [tv | e]; cbn [bind num_div]; [| discriminate].
  unfold float_div.
  destruct (Req_dec_T a 0); cbn [bind]; [discriminate |].
  destruct (int_to_float N) as [Nf | e] eqn:HNf; cbn [bind]; [| discriminate].
  assert (Nf = IZR N).
  { unfold int_to_float in HNf.
    destruct (Rlt_dec dbl_max (Rabs (IZR N))); congruence. }
  subst Nf; unfold float_pow.
  destruct (Req_dec_T (1 / beta p) 0); [lra |].
  destruct (Req_dec_T (IZR N) 0); [lra |].
  destruct (Rlt_dec 0 (IZR N)); [| lra].
  destruct (ranged (Rpower (IZR N) (1 / beta p))) as [w | e] eqn:Hw;
    cbn [bind num_mul num_div]; [| discriminate].
  unfold float_div.
  destruct (Req_dec_T w 0) as [-> | Hw0]; cbn [bind]; [discriminate |].
  apply ranged_value in Hw as [-> | ->]; [lra |].
  intro H; injection H as <-. eauto.
Qed.

(** For a positive factor, a positive target life and confidence and
    reliability strictly between 0 and 1, the displayed columns of the
    exponential data frame (hours, days, rounded days) never increase down
    the table; the same holds for the Weibull data frame when
    [beta > 0]. *)
Theorem data_frame_columns_non_increasing (p : ParameterSet) (a : R)
        (tb : SampleTable) :
  0 < a -> 0 < L p -> 0 < confidence p < 1 -> 0 < reliability p < 1 ->
  (df_exp p (PyFloat a) = Ok tb \/
   (0 < beta p /\ df_weibull p (PyFloat a) = Ok tb)) ->
  non_increasing (test_time_hours tb) /\
  non_increasing (test_time_days tb) /\
  non_increasingZ (rounded_days tb).
Proof.
  intros Ha HL Hc Hr [H | [Hb H]].
  - apply (sample_table_non_increasing
             (fun N => test_time_exponential p N (PyFloat a))
             (fun N => exponential_value p N a)); [| | exact H].
    + intros N t HN Ht.
      rewrite test_time_exponential_eq in Ht; try lra.
      * now injection Ht as <-.
      * assert ((30 <= 2 ^ 1023)%Z) by (vm_compute; discriminate). lia.
      * assert (1 <= IZR N) by (apply IZR_ge_1; lia). nra.
    + intros N1 N2 HN.
      destruct (Z.eq_dec N1 N2) as [-> | Hne]; [lra |].
      left; apply exponential_value_decreasing; try assumption; lia.
  - pose proof H as H1.
    apply sample_table_first_hours in H1 as (h & rest & Hh & _).
    destruct (test_time_weibull p 1 (PyFloat a)) as [t1 | e] eqn:Ht1;
      cbn [bind] in Hh; [| discriminate].
    apply round4_inv in Hh as (t & -> & _).
    apply test_time_weibull_inv in Ht1 as (tv & Htv & _);
      try assumption; [| lia].
    assert (Htv0 : 0 <= tv).
    { apply ranged_value in Htv as [-> | ->]; [lra |].
      left; apply Rpower_pos. }
    apply (sample_table_non_increasing
             (fun N => test_time_weibull p N (PyFloat a))
             (fun N => L p / a * tv / Rpower (IZR N) (1 / beta p)));
      [| | exact H].
    + intros N t' HN Ht'.
      apply test_time_weibull_inv in Ht' as (tv' & Htv' & ->);
        try assumption; [| lia].
      rewrite Htv in Htv'; now injection Htv' as <-.
    + intros N1 N2 HN.
      assert (HN1 : 1 <= IZR N1) by (apply IZR_ge_1; lia).
      assert (Hq : 0 <= L p / a * tv).
      { apply Rmult_le_pos; [left; now apply Rdiv_lt_0_compat | exact Htv0]. }
      unfold Rdiv at 1 3; apply Rmult_le_compat_l; [exact Hq |].
      destruct (Z.eq_dec N1 N2) as [-> | Hne]; [lra |].
      left; apply Rinv_lt_contravar.
      * apply Rmult_lt_0_compat; apply Rpower_pos.
      * apply Rlt_Rpower_l; [now apply Rinv_sign_pos |].
        split; [lra | apply IZR_lt; lia].
Qed.

Lemma data_frame_columns_non_increasing_defaults :
  exists tb, df_exp defaults (PyFloat 25) = Ok tb /\
             non_increasing (test_time_hours tb) /\
             non_increasingZ (rounded_days tb).
Proof.
  destruct (df_exp_nonneg defaults 25) as (e & He & _); try (simpl; lra).
  destruct (data_frame_columns_non_increasing defaults 25 e)
    as (H1 & _ & H3); try (simpl; lra).
  - left; exact He.
  - exists e; split; [exact He | split; assumption].
Defined.

(** With confidence at or above 1 the Weibull function raises
    [ValueError] at its first operation, for every sample size, factor
    and shape parameter. *)
Theorem test_time_weibull_confidence_ge_1 (p : ParameterSet) (N : Z)
        (AF : pynum) :
  1 <= confidence p -> test_time_weibull p N AF = Raise ValueError.
Proof.
  intro H; unfold test_time_weibull.
  now rewrite math_log_err by lra.
Qed.

Lemma test_time_weibull_confidence_ge_1_witness :
  test_time_weibull
    {| T_use_C := 25; RH_use := 50; Ea := 0.9; confidence := 1;
       reliability := 0.9; beta := 0; T_stress_C := 85; RH_stress := 85;
       n := 3; m := 2; D_uv := 0.8; D_tc := 0.9; D_mech := 0.95;
       L := 87600 |} 0 (PyFloat 0)
  = Raise ValueError.
Proof.
  apply test_time_weibull_confidence_ge_1; simpl; lra.
Defined.

(** ** Order relations that survive rounding *)


Lemma ranged_ge_1 (r w : R) : 1 <= r -> ranged r = Ok w -> w = r.
Proof.
  intros Hr H; unfold ranged in H.
  destruct (Rlt_dec dbl_max (Rabs r)); [discriminate |].
  destruct (Rlt_dec (Rabs r) dbl_tiny) as [Hlt | _]; [| congruence].
  rewrite Rabs_pos_eq in Hlt by lra.
  pose proof dbl_tiny_le_1; lra.
Qed.

(** With an activation energy between 0 and 1000 eV and both Kelvin
    temperatures at least 1, an Arrhenius factor that is returned is at
    least 1 when the stress temperature is not below the use temperature,
    and between 0 and 1 when it is not above. *)
Theorem AF_arrhenius_vs_1 (p : ParameterSet) (a : R) :
  0 <= Ea p <= 1000 -> 1 <= T_use_K p -> 1 <= T_stress_K p ->
  AF_arrhenius p = Ok (PyFloat a) ->
  (T_use_C p <= T_stress_C p -> 1 <= a) /\
  (T_stress_C p <= T_use_C p -> 0 <= a <= 1).
Proof.
  intros HEa Hu Hs; unfold AF_arrhenius, arrhenius_term.
  rewrite (float_div_ok (Ea p) k) by (pose proof k_pos; lra).
  rewrite !float_div_ok by lra; cbn [bind]; unfold math_exp.
  set (x := Ea p / k * (1 / T_use_K p - 1 / T_stress_K p)).
  destruct (ranged (exp x)) as [w | e] eqn:Hw; cbn [bind]; [| discriminate].
  intro H; injection H as <-.
  assert (Hk : 0 <= Ea p / k).
  { unfold Rdiv; apply Rmult_le_pos; [lra |].
    left; apply Rinv_0_lt_compat, k_pos. }
  assert (Hd : 1 / T_use_K p - 1 / T_stress_K p =
               (T_stress_C p - T_use_C p) / (T_use_K p * T_stress_K p)).
  { unfold T_use_K, T_stress_K in *; field; lra. }
  assert (Hprod : 0 < / (T_use_K p * T_stress_K p)).
  { apply Rinv_0_lt_compat; nra. }
  assert (Hexp : forall y, 0 <= y -> 1 <= exp y).
  { intros y Hy; rewrite <- exp_0 at 1.
    destruct (Req_dec y 0) as [-> | Hne]; [lra |].
    left; apply exp_increasing; lra. }
  split; intro HT.
  - assert (Hx : 0 <= x).
    { unfold x; rewrite Hd; unfold Rdiv at 2.
      apply Rmult_le_pos; [exact Hk |]. apply Rmult_le_pos; lra. }
    apply Hexp in Hx.
    now rewrite (ranged_ge_1 _ _ Hx Hw).
  - assert (Hx : 0 <= - x).
    { unfold x; rewrite Hd; unfold Rdiv at 2.
      replace (- (Ea p / k * ((T_stress_C p - T_use_C p) *
                              / (T_use_K p * T_stress_K p))))
        with (Ea p / k * ((T_use_C p - T_stress_C p) *
                          / (T_use_K p * T_stress_K p))) by ring.
      apply Rmult_le_pos; [exact Hk |]. apply Rmult_le_pos; lra. }
    apply Hexp in Hx; rewrite exp_Ropp in Hx.
    pose proof (exp_pos x) as Hpos.
    assert (Hle : exp x <= 1).
    { apply Rmult_le_reg_r with (/ exp x);
        [now apply Rinv_0_lt_compat |].
      rewrite Rinv_r by lra. lra. }
    apply ranged_value in Hw as [-> | ->]; lra.
Qed.

Lemma AF_arrhenius_vs_1_defaults :
  exists a, AF_arrhenius defaults = Ok (PyFloat a) /\ 1 <= a.
Proof.
  assert (H : AF_arrhenius defaults = Ok (PyFloat (AF_arrhenius_value defaults))).
  { unfold AF_arrhenius; rewrite arrhenius_term_ok; try reflexivity;
      try (unfold T_use_K, T_stress_K; simpl; lra).
    unfold T_use_K, T_stress_K, k; simpl; apply Rabs_le; lra. }
  eexists; split; [exact H |].
  apply (AF_arrhenius_vs_1 defaults _); try exact H;
    unfold T_use_K, T_stress_K; simpl; lra.
Defined.






(** For a target life and factors between 1e-50 and 1e50, a larger
    acceleration factor never gives a longer point test time [L / AF],
    and the times are positive. *)
Theorem point_test_time_non_increasing_in_AF (p : ParameterSet) (a1 a2 : R) :
  moderate (L p) -> moderate a1 -> moderate a2 -> a1 <= a2 ->
  exists t1 t2,
    point_test_time p (PyFloat a1) = Ok (PyFloat t1) /\
    point_test_time p (PyFloat a2) = Ok (PyFloat t2) /\
    0 < t2 <= t1.
Proof.
  intros HL H1 H2 H12.
  apply moderate_pos in HL, H1, H2.
  exists (L p / a1), (L p / a2).
  split; [apply point_test_time_pos; assumption |].
  split; [apply point_test_time_pos; assumption |].
  split; [now apply Rdiv_lt_0_compat |].
  unfold Rdiv; apply Rmult_le_compat_l; [lra |].
  apply Rinv_le_contravar; assumption.
Qed.

Lemma point_test_time_non_increasing_in_AF_defaults :
  exists t1 t2,
    point_test_time defaults (PyFloat 25) = Ok (PyFloat t1) /\
    point_test_time defaults (PyFloat 125) = Ok (PyFloat t2) /\
    0 < t2 <= t1.
Proof.
  apply (point_test_time_non_increasing_in_AF defaults 25 125);
    unfold moderate; simpl; lra.
Defined.

(** For a sample size between 1 and 10^6, a target life and factors
    between 1e-50 and 1e50, confidence and reliability between 1e-6 and
    1 - 1e-6 and Weibull powers within range, a larger acceleration
    factor never gives a longer zero-failure test time, exponential or
    Weibull, and the times are positive. *)
Theorem test_times_non_increasing_in_AF (p : ParameterSet) (N : Z) (a1 a2 : R) :
  (1 <= N <= 10 ^ 6)%Z -> moderate a1 -> moderate a2 -> a1 <= a2 ->
  moderate (L p) -> interior (confidence p) -> interior (reliability p) ->
  weibull_in_range p N ->
  (exists t1 t2,
      test_time_exponential p N (PyFloat a1) = Ok (PyFloat t1) /\
      test_time_exponential p N (PyFloat a2) = Ok (PyFloat t2) /\
      0 < t2 <= t1) /\
  (exists t1 t2,
      test_time_weibull p N (PyFloat a1) = Ok (PyFloat t1) /\
      test_time_weibull p N (PyFloat a2) = Ok (PyFloat t2) /\
      0 < t2 <= t1).
Proof.
  intros HN H1 H2 H12 HL Hc Hr Hw.
  apply moderate_pos in H1, H2, HL; apply interior_open in Hc, Hr.
  assert (HN' : 1 <= IZR N) by (apply IZR_ge_1; lia).
  pose proof (small_N_bound N) as Hbig.
  assert (Hinv : / a2 <= / a1) by (apply Rinv_le_contravar; assumption).
  split.
  - exists (exponential_value p N a1), (exponential_value p N a2).
    split; [apply test_time_exponential_eq; try lra; try nra; lia |].
    split; [apply test_time_exponential_eq; try lra; try nra; lia |].
    split; [apply exponential_value_pos; try assumption; lia |].
    unfold exponential_value.
    assert (Hl1 : ln (1 - confidence p) < 0) by (apply ln_neg; lra).
    assert (Hl2 : ln (reliability p) < 0) by (apply ln_neg; lra).
    assert (Hq : 0 < ln (1 - confidence p) / ln (reliability p)).
    { replace (ln (1 - confidence p) / ln (reliability p))
        with ((- ln (1 - confidence p)) / (- ln (reliability p)))
        by (field; lra).
      apply Rdiv_lt_0_compat; lra. }
    apply Rmult_le_compat_r; [lra |].
    unfold Rdiv; apply Rmult_le_compat_l; [lra |].
    apply Rinv_le_contravar; [nra | nra].
  - exists (weibull_value p N a1), (weibull_value p N a2).
    split; [apply (test_time_weibull_in_range p N); try assumption; lra || lia |].
    split; [apply (test_time_weibull_in_range p N); try assumption; lra || lia |].
    split; [now apply weibull_value_pos |].
    unfold weibull_value.
    pose proof (Rpower_pos (- ln (1 - confidence p)) (1 / beta p)) as Ht.
    pose proof (Rpower_pos (IZR N) (1 / beta p)) as HwN.
    unfold Rdiv at 1 3; apply Rmult_le_compat_r;
      [left; now apply Rinv_0_lt_compat |].
    apply Rmult_le_compat_r; [lra |].
    unfold Rdiv; apply Rmult_le_compat_l; lra.
Qed.

Lemma test_times_non_increasing_in_AF_defaults :
  exists t1 t2,
    test_time_weibull defaults 5 (PyFloat 25) = Ok (PyFloat t1) /\
    test_time_weibull defaults 5 (PyFloat 125) = Ok (PyFloat t2) /\
    0 < t2 <= t1.
Proof.
  apply (test_times_non_increasing_in_AF defaults 5 25 125);
    unfold moderate, interior; simpl; try (lra || lia).
  apply (weibull_in_range_smaller defaults 30 5);
    [lia | exact weibull_in_range_defaults].
Defined.

(** ** Degenerate arguments *)

Lemma float_pow_raise (x y : R) (e : PyError) :
  float_pow x y = Raise e -> e = ZeroDivisionError \/ e = OverflowError.
Proof.
  unfold float_pow.
  repeat match goal with
         | |- context [if ?c then _ else _] => destruct c
         end; try (intro H; left; congruence);
    destruct (ranged _) eqn:Hr; cbn [bind]; try discriminate;
    intro H; injection H as <-; right; eapply ranged_raise; eassumption.
Qed.

Lemma num_div_by_zero (a : pynum) : num_div a (PyFloat 0) = Raise ZeroDivisionError.
Proof.
  destruct a; cbn [num_div re_part im_part].
  - now rewrite float_div_zero.
  - destruct (Req_dec_T (0 * 0 + 0 * 0) 0) as [_ | H]; [reflexivity |].
    exfalso; apply H; ring.
Qed.





(** An acceleration factor of 0.0 never yields a test time: the point
    test time raises [ZeroDivisionError], so does the exponential
    function for every sample size that converts to a float, and the
    Weibull function raises an exception whenever its logarithm is
    defined. *)
Theorem zero_AF_raises (p : ParameterSet) (N : Z) :
  point_test_time p (PyFloat 0) = Raise ZeroDivisionError /\
  ((Z.abs N <= 2 ^ 1023)%Z ->
   test_time_exponential p N (PyFloat 0) = Raise ZeroDivisionError) /\
  (confidence p < 1 ->
   exists e, test_time_weibull p N (PyFloat 0) = Raise e).
Proof.
  split; [apply num_div_by_zero |].
  split.
  - intro HN; unfold test_time_exponential.
    rewrite int_to_float_ok by assumption; cbn [bind num_mul].
    now rewrite Rmult_0_r, num_div_by_zero.
  - intro Hc; unfold test_time_weibull.
    rewrite math_log_ok by lra; cbn [bind].
    unfold float_div at 1.
    destruct (Req_dec_T (beta p) 0) as [Hb | Hb];
      [exists ZeroDivisionError; reflexivity |]; cbn [bind].
    destruct (float_pow (- ln (1 - confidence p)) (1 / beta p))
      as [term | e]; cbn [bind]; [| exists e; reflexivity].
    rewrite num_div_by_zero; exists ZeroDivisionError; reflexivity.
Qed.

Lemma zero_AF_raises_defaults :
  exists e, test_time_weibull defaults 5 (PyFloat 0) = Raise e.
Proof.
  apply (proj2 (proj2 (zero_AF_raises defaults 5))).
  simpl; lra.
Defined.

(** A negative acceleration factor is not rejected: for a sample size
    between 1 and 10^6, a target life between 1e-50 and 1e50, a factor
    between -1e50 and -1e-50, confidence and reliability between 1e-6 and
    1 - 1e-6 and Weibull powers within range, the point test time and
    both test-time functions return a strictly negative number. *)
Theorem negative_AF_gives_negative_times (p : ParameterSet) (N : Z) (a : R) :
  (1 <= N <= 10 ^ 6)%Z -> moderate (- a) -> moderate (L p) ->
  interior (confidence p) -> interior (reliability p) ->
  weibull_in_range p N ->
  exists T e w,
    point_test_time p (PyFloat a) = Ok (PyFloat T) /\ T < 0 /\
    test_time_exponential p N (PyFloat a) = Ok (PyFloat e) /\ e < 0 /\
    test_time_weibull p N (PyFloat a) = Ok (PyFloat w) /\ w < 0.
Proof.
  intros HN Ha HL Hc Hr Hw.
  apply moderate_pos in Ha, HL; apply interior_open in Hc, Hr.
  assert (HN' : 1 <= IZR N) by (apply IZR_ge_1; lia).
  pose proof (small_N_bound N) as Hbig.
  assert (HT : L p / a < 0).
  { replace (L p / a) with (- (L p / - a)) by (field; lra).
    assert (0 < L p / - a) by (apply Rdiv_lt_0_compat; lra). lra. }
  exists (L p / a), (exponential_value p N a), (weibull_value p N a).
  split.
  { unfold point_test_time; cbn [num_div]; rewrite float_div_ok by lra.
    reflexivity. }
  split; [exact HT |].
  split; [apply test_time_exponential_eq; try lra; try nra; lia |].
  split.
  { assert (Hpos : 0 < exponential_value p N (- a))
      by (apply exponential_value_pos; try assumption; lia).
    assert (Heq : exponential_value p N a = - exponential_value p N (- a)).
    { unfold exponential_value.
      assert (ln (reliability p) < 0) by (apply ln_neg; lra).
      field; lra. }
    lra. }
  split; [apply (test_time_weibull_in_range p N); try assumption; lra || lia |].
  unfold weibull_value.
  pose proof (Rpower_pos (- ln (1 - confidence p)) (1 / beta p)) as Ht.
  pose proof (Rpower_pos (IZR N) (1 / beta p)) as HwN.
  assert (H1 : L p / a * Rpower (- ln (1 - confidence p)) (1 / beta p) < 0)
    by nra.
  unfold Rdiv at 1.
  assert (Hi : 0 < / Rpower (IZR N) (1 / beta p)) by now apply Rinv_0_lt_compat.
  nra.
Qed.

Lemma negative_AF_gives_negative_times_defaults :
  exists e, test_time_exponential defaults 5 (PyFloat (-25)) = Ok (PyFloat e) /\
            e < 0.
Proof.
  destruct (negative_AF_gives_negative_times defaults 5 (-25))
    as (T & e & w & _ & _ & He & Hneg & _);
    unfold moderate, interior; try (simpl; lra || lia).
  - apply (weibull_in_range_smaller defaults 30 5);
      [lia | exact weibull_in_range_defaults].
  - exists e; split; assumption.
Defined.

(** ** Complex numbers and failures on the way to the tables *)

Lemma sum_squares_nonzero (x y : R) : x <> 0 \/ y <> 0 -> x * x + y * y <> 0.
Proof. intros [H | H]; nra. Qed.

Lemma mapM_head_raise {A B : Type} (f : A -> result B) (x : A) (xs : list A)
      (e : PyError) :
  f x = Raise e -> mapM f (x :: xs) = Raise e.
Proof. intro H; cbn [mapM]; now rewrite H. Qed.

Lemma sample_table_head_raise (f : Z -> result pynum) (e : PyError) :
  (t <- f 1%Z ;; round4 t) = Raise e -> sample_table f = Raise e.
Proof.
  intro H; unfold sample_table.
  change N_range with (1%Z :: map Z.of_nat (seq 2 29)).
  rewrite (mapM_head_raise (fun N => t <- f N ;; round4 t) 1%Z
             (map Z.of_nat (seq 2 29)) e H).
  reflexivity.
Qed.

Lemma int_to_float_1 : int_to_float 1 = Ok 1.
Proof. apply (int_to_float_ok 1); vm_compute; discriminate. Qed.

(** With confidence and reliability between 1e-6 and 1 - 1e-6 and a
    non-zero shape parameter, a non-zero complex factor goes through the
    exponential function as a complex number, and [round] then raises
    [TypeError]; the Weibull function either raises [OverflowError] in a
    power or also returns a complex number.  Neither data frame is
    built. *)
Theorem complex_AF_breaks_data_frames (p : ParameterSet) (re im : R) :
  re <> 0 \/ im <> 0 ->
  interior (confidence p) -> interior (reliability p) -> beta p <> 0 ->
  df_exp p (PyComplex re im) = Raise TypeError /\
  (df_weibull p (PyComplex re im) = Raise TypeError \/
   df_weibull p (PyComplex re im) = Raise OverflowError).
Proof.
  intros Hnz Hc Hr Hb.
  apply interior_open in Hc, Hr.
  assert (Hl : ln (1 - confidence p) < 0) by (apply ln_neg; lra).
  assert (Hl2 : ln (reliability p) < 0) by (apply ln_neg; lra).
  pose proof (sum_squares_nonzero re im Hnz) as Hd.
  split.
  - apply sample_table_head_raise.
    unfold test_time_exponential; rewrite int_to_float_1.
    cbn [bind num_mul num_div re_part im_part].
    match goal with
    | |- context [Req_dec_T ?x 0] =>
        destruct (Req_dec_T x 0) as [H0 | _];
          [exfalso; apply Hd; rewrite <- H0; ring |]
    end.
    cbn [bind].
    rewrite !math_log_ok by lra; cbn [bind].
    rewrite float_div_ok by lra; reflexivity.
  - assert (Hfun : forall r,
      test_time_weibull p 1 (PyComplex re im) = r ->
      r = Raise OverflowError \/ exists re' im', r = Ok (PyComplex re' im')).
    { intros r Heq; unfold test_time_weibull in Heq.
      rewrite math_log_ok in Heq by lra; cbn [bind] in Heq.
      rewrite !float_div_ok in Heq by assumption; cbn [bind] in Heq.
      unfold float_pow at 1 in Heq.
      destruct (Req_dec_T (1 / beta p) 0) as [H0 | He].
      { exfalso; unfold Rdiv in H0; rewrite Rmult_1_l in H0.
        now apply (Rinv_neq_0_compat (beta p)). }
      destruct (Req_dec_T (- ln (1 - confidence p)) 0); [lra |].
      destruct (Rlt_dec 0 (- ln (1 - confidence p))); [| lra].
      destruct (ranged (Rpower (- ln (1 - confidence p)) (1 / beta p)))
        as [tv | e] eqn:Htv; cbn [bind] in Heq.
      2:{ left; now rewrite <- Heq, (ranged_raise _ _ Htv). }
      cbn [num_div re_part im_part] in Heq.
      destruct (Req_dec_T (re * re + im * im) 0) as [H0 | _];
        [contradiction |]; cbn [bind] in Heq.
      rewrite int_to_float_1 in Heq; cbn [bind] in Heq.
      rewrite float_pow_1_base in Heq;
        cbn [bind num_mul num_div re_part im_part] in Heq.
      match type of Heq with
      | context [Req_dec_T ?x 0] =>
          destruct (Req_dec_T x 0) as [H0 | _]; [exfalso; lra |]
      end.
      right; rewrite <- Heq; eauto. }
    destruct (Hfun _ eq_refl) as [H | (re' & im' & H)]; [right | left];
      apply sample_table_head_raise; now rewrite H.
Qed.

Lemma complex_AF_breaks_data_frames_defaults :
  df_exp defaults (PyComplex 0 25) = Raise TypeError.
Proof.
  apply (complex_AF_breaks_data_frames defaults 0 25);
    unfold interior; simpl; lra.
Defined.

(** With [beta = 0], a target life and a positive Arrhenius factor
    between 1e-50 and 1e50, and confidence and reliability between 1e-6
    and 1 - 1e-6: the Weibull data frame raises [ZeroDivisionError] for
    every factor, and the loop over the model tabs stops with that error
    at its first tab although the exponential data frame there is
    built. *)
Theorem zero_beta_breaks_tabs (p : ParameterSet) (f : AFs) (a : R) :
  beta p = 0 -> interior (confidence p) -> interior (reliability p) ->
  moderate (L p) -> af_arrhenius f = PyFloat a -> moderate a ->
  (forall AF, df_weibull p AF = Raise ZeroDivisionError) /\
  (exists e, df_exp p (PyFloat a) = Ok e) /\
  tabs p f = Raise ZeroDivisionError.
Proof.
  intros Hb Hc Hr HL Hf Ha.
  apply moderate_pos in Ha, HL; apply interior_open in Hc, Hr.
  assert (Hw : forall AF, df_weibull p AF = Raise ZeroDivisionError).
  { intro AF; apply sample_table_head_raise.
    unfold test_time_weibull.
    rewrite math_log_ok by lra; cbn [bind].
    now rewrite Hb, float_div_zero. }
  destruct (df_exp_nonneg p a Ha HL Hc Hr) as (e & He & _).
  split; [exact Hw |].
  split; [now exists e |].
  unfold tabs, model_AFs; cbn [mapM]; rewrite Hf.
  rewrite He; cbn [bind].
  now rewrite Hw.
Qed.

Lemma zero_beta_breaks_tabs_defaults :
  tabs (set_beta defaults 0)
       {| af_arrhenius := PyFloat 25; af_peck := PyFloat 125;
          af_eyring := PyFloat 70; af_eyring_total := PyFloat 50 |}
  = Raise ZeroDivisionError.
Proof.
  apply (zero_beta_breaks_tabs (set_beta defaults 0) _ 25);
    unfold moderate, interior; simpl; try lra; reflexivity.
Defined.





Lemma div24_complex (re im : R) :
  exists re' im', num_div (PyComplex re im) (PyFloat 24) = Ok (PyComplex re' im').
Proof.
  cbn [num_div re_part im_part].
  destruct (Req_dec_T (24 * 24 + 0 * 0) 0) as [H | _]; [lra |].
  eauto.
Qed.

Lemma models_days_ok (l : list pynum) :
  exists ds, mapM (fun t => num_div t (PyFloat 24)) l = Ok ds.
Proof.
  induction l as [| [t | re im] l (ds & IH)]; cbn [mapM].
  - eauto.
  - rewrite div24, IH; cbn [bind]; eauto.
  - destruct (div24_complex re im) as (re' & im' & ->).
    rewrite IH; cbn [bind]; eauto.
Qed.

Lemma models_rounded_ok (l : list pynum) :
  Forall is_float l ->
  exists rs, mapM (fun t => d <- num_div t (PyFloat 24) ;; math_ceil d) l = Ok rs.
Proof.
  induction 1 as [| a l (t & ->) _ (rs & IH)]; cbn [mapM].
  - eauto.
  - rewrite div24, IH; cbn [bind math_ceil]; eauto.
Qed.

Lemma models_rounded_raise (l : list pynum) :
  ~ Forall is_float l ->
  mapM (fun t => d <- num_div t (PyFloat 24) ;; math_ceil d) l = Raise TypeError.
Proof.
  induction l as [| [t | re im] l IH]; intro H; cbn [mapM].
  - exfalso; apply H; constructor.
  - rewrite div24; cbn [bind math_ceil].
    rewrite IH; [reflexivity |].
    intro HF; apply H; constructor; [now exists t | exact HF].
  - destruct (div24_complex re im) as (re' & im' & ->); reflexivity.
Qed.

Lemma Forall_is_float_dec (l : list pynum) :
  Forall is_float l \/ ~ Forall is_float l.
Proof.
  induction l as [| [t | re im] l [IH | IH]].
  - left; constructor.
  - left; constructor; [now exists t | exact IH].
  - right; intro H; inversion H; contradiction.
  - right; intro H; inversion H as [| ? ? (x & Hx) _]; discriminate.
  - right; intro H; inversion H as [| ? ? (x & Hx) _]; discriminate.
Qed.

(** The summary data frame is built exactly when all four point test
    times are finite floats; when they are finite floats up to a first
    complex one, [math.ceil] raises [TypeError]. *)
Theorem models_df_needs_float_times (f : AFs) (ts : Ts) :
  let T := [T_arrhenius ts; T_peck ts; T_eyring ts; T_eyring_total ts] in
  (Forall is_float T <-> exists md, models_df f ts = Ok md) /\
  (~ Forall is_float T -> models_df f ts = Raise TypeError).
Proof.
  intro T.
  assert (Hyes : Forall is_float T -> exists md, models_df f ts = Ok md).
  { intro H; unfold models_df; fold T.
    destruct (models_days_ok T) as (ds & ->); cbn [bind].
    destruct (models_rounded_ok T H) as (rs & ->); cbn [bind]; eauto. }
  assert (Hno : ~ Forall is_float T -> models_df f ts = Raise TypeError).
  { intro H; unfold models_df; fold T.
    destruct (models_days_ok T) as (ds & ->); cbn [bind].
    now rewrite (models_rounded_raise T H). }
  split; [split; [exact Hyes |] | exact Hno].
  intros (md & Hmd).
  destruct (Forall_is_float_dec T) as [H | H]; [exact H |].
  rewrite (Hno H) in Hmd; discriminate.
Qed.

Lemma models_df_needs_float_times_witness :
  models_df {| af_arrhenius := PyFloat 25; af_peck := PyComplex 1 1;
               af_eyring := PyFloat 70; af_eyring_total := PyFloat 50 |}
            {| T_arrhenius := PyFloat 3504; T_peck := PyComplex 43800 (-43800);
               T_eyring := PyFloat 1251; T_eyring_total := PyFloat 1752 |}
  = Raise TypeError.
Proof.
  apply (proj2 (models_df_needs_float_times _ _)).
  cbn [T_arrhenius T_peck T_eyring T_eyring_total].
  intro H; inversion H as [| ? ? _ H']; inversion H' as [| ? ? (t & Ht) _].
  discriminate Ht.
Defined.
